(** * ChatContainer: the chat-session initiation orchestrator

    A shallow embedding of [src/components/Chat/ChatContainer.js] and
    theorems about its lifecycle state machine, its feature-flag
    derivation and its event-bus subscription.

    JavaScript values are embedded as a small inductive type with the
    language's truthiness and its value-returning [&&] and [||]; the
    [async] function [submitChatInitiation] is embedded as a resumption:
    a synchronous prefix followed by one continuation per [await]. *)

From Stdlib Require Import List String Ascii ZArith Bool Lia.
Import ListNotations.
Open Scope string_scope.
Open Scope list_scope.

Set Warnings "-register-all".

(** ** JavaScript values *)

Module JS.

(** The values the component inspects.  Numbers are integers here (the
    component only ever tests them for truthiness); properties are own
    properties, kept in insertion order. *)
Inductive value : Type :=
| Undefined
| Null
| Bool (b : bool)
| Num (n : Z)
| Str (s : string)
| Obj (fields : list (string * value)).

(** A plain object: what [input] and [chatDetails] are. *)
Definition obj : Type := list (string * value).

(** ToBoolean. *)
Definition truthy (v : value) : bool :=
  match v with
  | Undefined => false
  | Null => false
  | Bool b => b
  | Num n => negb (Z.eqb n 0)
  | Str s => negb (String.eqb s "")
  | Obj _ => true
  end.

(** [a && b] and [a || b] return one of their operands. *)
Definition and_ (a b : value) : value := if truthy a then b else a.
Definition or_ (a b : value) : value := if truthy a then a else b.

(** [o.k] on a plain object: the first own property named [k], else
    [undefined]. *)
Fixpoint prop (o : obj) (k : string) : value :=
  match o with
  | [] => Undefined
  | (k', v) :: rest => if String.eqb k k' then v else prop rest k
  end.

(** [v[k]] on a value that is neither [null] nor [undefined] (every use
    in the component sits behind a truthiness guard).  Only own
    properties of objects are looked at: a primitive has none under the
    names used here. *)
Definition index (v : value) (k : string) : value :=
  match v with
  | Obj fields => prop fields k
  | _ => Undefined
  end.

(** [typeof v === "string"]. *)
Definition is_string (v : value) : bool :=
  match v with
  | Str _ => true
  | _ => false
  end.

Definition comma : ascii := ","%char.

(** [s.split(",")]: the pieces between commas; the empty string splits
    into one empty piece. *)
Fixpoint split_comma (s : string) : list string :=
  match s with
  | EmptyString => [EmptyString]
  | String c rest =>
      if Ascii.eqb c comma then EmptyString :: split_comma rest
      else match split_comma rest with
           | [] => [String c EmptyString]
           | piece :: pieces => String c piece :: pieces
           end
  end.

(** [pieces.includes(x)] on an array of strings. *)
Definition includes (pieces : list string) (x : string) : bool :=
  existsb (String.eqb x) pieces.

(** [pieces.join(",")], the inverse of [split_comma]. *)
Fixpoint join_comma (pieces : list string) : string :=
  match pieces with
  | [] => EmptyString
  | [p] => p
  | p :: rest => String.append p (String comma (join_comma rest))
  end.

(** A string without a comma in it. *)
Fixpoint comma_free (s : string) : Prop :=
  match s with
  | EmptyString => True
  | String c rest => c <> comma /\ comma_free rest
  end.

End JS.

(** ** Collaborators at the component's boundary *)

(** A [ChatSession] object, as [new ChatSession(chatDetails, name, region,
    stage, customizationParams)] builds it ([./ChatSession] is not among
    the sources; the object is kept as the arguments it was built from).
    [ref] is the object's identity: two sessions are the same object when
    their [ref]s agree. *)
Record ChatSession : Type := {
  ref : nat;
  details : JS.obj;
  name : JS.value;
  region : JS.value;
  stage : JS.value;
  customization : JS.obj
}.

(** How a call into caller code ends. *)
Inductive completion : Type :=
| Returns
| Throws (error : JS.value).

(** An optional callback: [None] is an argument left out ([cb && cb(x)]
    then calls nothing). *)
Definition callback (A : Type) : Type := option (A -> completion).

(** How a promise settles. *)
Inductive settled (A : Type) : Type :=
| Resolved (a : A)
| Rejected (error : JS.value).
Arguments Resolved {A} a.
Arguments Rejected {A} error.

(** Calls the component makes to its collaborators, in order. *)
Inductive call : Type :=
| CallInitiateChat (input : JS.obj)
| CallOnChatClose (s : ChatSession)
| CallOpenChatSession (s : ChatSession)
| CallSuccess (s : ChatSession)
| CallFailure (error : JS.value).

Module EventBus.

(** Modelled from the spec: [./eventbus] is not among the sources.  The
    bus offers [on(topic, handler)], [off(handler)] and
    [trigger(topic, payload)]; subscribers are kept per topic in
    subscription order; [off] removes a specific handler reference and
    removing a handler that is not subscribed does nothing.  A handler is
    a function object, known by its reference. *)
Definition t : Type := list (string * nat).

(** Modelled from the spec: [on(topic, handler)] adds a subscriber after
    the ones already there. *)
Definition on (topic : string) (handler : nat) (b : t) : t :=
  b ++ [(topic, handler)].

(** Modelled from the spec: [off(handler)] removes that handler
    reference and leaves every other subscription alone. *)
Definition off (handler : nat) (b : t) : t :=
  filter (fun entry => negb (Nat.eqb (snd entry) handler)) b.

(** Modelled from the spec: the handlers [trigger(topic, _)] delivers
    to, in subscription order. *)
Definition trigger (topic : string) (b : t) : list nat :=
  map snd (filter (fun entry => String.eqb (fst entry) topic) b).

End EventBus.

(** Everything outside the component that it reads or writes: the
    registry's current session, the event bus, the next unused object
    reference, what [logger.info] was given, and the calls made so far. *)
Record World : Type := {
  current : option ChatSession;
  bus : EventBus.t;
  fresh : nat;
  log : list (string * list JS.value);
  calls : list call
}.

Definition with_current (c : option ChatSession) (w : World) : World :=
  {| current := c; bus := bus w; fresh := fresh w; log := log w;
     calls := calls w |}.

Definition with_bus (b : EventBus.t) (w : World) : World :=
  {| current := current w; bus := b; fresh := fresh w; log := log w;
     calls := calls w |}.

Definition with_fresh (n : nat) (w : World) : World :=
  {| current := current w; bus := bus w; fresh := n; log := log w;
     calls := calls w |}.

Definition with_log (l : list (string * list JS.value)) (w : World) : World :=
  {| current := current w; bus := bus w; fresh := fresh w; log := l;
     calls := calls w |}.

Definition record_call (c : call) (w : World) : World :=
  {| current := current w; bus := bus w; fresh := fresh w; log := log w;
     calls := calls w ++ [c] |}.

(** Modelled from the spec: [setCurrentChatSessionInstance] of
    [./ChatSession], which is not among the sources.  The registry is one
    global slot and the last write wins. *)
Definition setCurrentChatSessionInstance (s : ChatSession) (w : World)
  : World :=
  with_current (Some s) w.

(** [f.bind(this)]: a new function object each time. *)
Definition bind (w : World) : nat * World :=
  (fresh w, with_fresh (S (fresh w)) w).

(** What the remote side does in one attempt: how [initiateChat(input)]
    settles and how [chatSession.openChatSession()] settles. *)
Record Env : Type := {
  initiateChat : JS.obj -> settled JS.obj;
  openResult : ChatSession -> settled unit
}.

(** ** The component *)

Inductive Status : Type :=
| NotInitiated
| Initiating
| Initiated
| InitiateFailed.

(** [this.state]. *)
Record State : Type := {
  chatSession : option ChatSession;
  composerConfig : JS.value;
  status : Status;
  language : JS.value
}.

(** The argument of [setState]: the fields it names. *)
Record Patch : Type := {
  set_status : option Status;
  set_chatSession : option (option ChatSession);
  set_composerConfig : option JS.value;
  set_language : option JS.value
}.

Definition merge (p : Patch) (s : State) : State :=
  {| chatSession :=
       match set_chatSession p with Some v => v | None => chatSession s end;
     composerConfig :=
       match set_composerConfig p with
       | Some v => v
       | None => composerConfig s
       end;
     status := match set_status p with Some v => v | None => status s end;
     language :=
       match set_language p with Some v => v | None => language s end |}.

Definition only_status (v : Status) : Patch :=
  {| set_status := Some v; set_chatSession := None;
     set_composerConfig := None; set_language := None |}.

(** [this]: the state, the handler kept for [off], and whether
    [window.connect.LogManager] gave a logger. *)
Record Component : Type := {
  state : State;
  submitChatInitiationHandler : nat;
  logger : bool
}.

(** [this.setState(patch)], merged at once: what React does with a call
    made outside a batch, and what a call made inside a batch amounts to
    once the batch has ended (see [Scheduled] for the time in between). *)
Definition setState (p : Patch) (c : Component) : Component :=
  {| state := merge p (state c);
     submitChatInitiationHandler := submitChatInitiationHandler c;
     logger := logger c |}.

(** [this.logger && this.logger.info(msg, ...args)]. *)
Definition info (c : Component) (msg : string) (args : list JS.value)
  (w : World) : World :=
  if logger c then with_log (log w ++ [(msg, args)]) w else w.

Definition initial_state : State :=
  {| chatSession := None;
     composerConfig := JS.Obj [];
     status := NotInitiated;
     language := JS.Str "en_US" |}.

(** [constructor(props)]: binds [initiateChatSession] twice, keeps the
    first bound function and subscribes the second. *)
Definition constructor (has_logger : bool) (w : World) : Component * World :=
  let (kept, w1) := bind w in
  let (subscribed, w2) := bind w1 in
  ({| state := initial_state;
      submitChatInitiationHandler := kept;
      logger := has_logger |},
   with_bus (EventBus.on "initChat" subscribed (bus w2)) w2).

Definition componentWillUnmount (c : Component) (w : World) : World :=
  with_bus (EventBus.off (submitChatInitiationHandler c) (bus w)) w.

(** [resetState]. *)
Definition resetState (c : Component) (w : World) : Component * World :=
  (setState {| set_status := Some NotInitiated;
               set_chatSession := Some None;
               set_composerConfig := None;
               set_language := None |} c,
   info c "Chat session is reset" [] w).

Section ChatContainer.

(** [CHAT_FEATURE_TYPES.ATTACHMENTS] of [./constants] and
    [ContentType.MESSAGE_CONTENT_TYPE.TEXT_MARKDOWN] of
    [./datamodel/Model]: neither file is among the sources, so the two
    string literals are parameters of the development. *)
Variable ATTACHMENTS : string.
Variable TEXT_MARKDOWN : string.

(** *** The values derived on success *)

Definition attachmentsEnabled (input chatDetails : JS.obj) : JS.value :=
  JS.or_
    (JS.and_ (JS.prop input "featurePermissions")
       (JS.index (JS.prop input "featurePermissions") ATTACHMENTS))
    (JS.and_ (JS.prop chatDetails "featurePermissions")
       (JS.index (JS.prop chatDetails "featurePermissions") ATTACHMENTS)).

Definition richMessagingEnabled (input : JS.obj) : JS.value :=
  match JS.prop input "supportedMessagingContentTypes" with
  | JS.Str s => JS.Bool (JS.includes (JS.split_comma s) TEXT_MARKDOWN)
  | _ => JS.Bool false
  end.

Definition effectiveLanguage (input : JS.obj) : JS.value :=
  JS.or_ (JS.prop input "language") (JS.Str "en_US").

(** The object literal [{ attachmentsEnabled, richMessagingEnabled }]. *)
Definition composerConfigOf (input chatDetails : JS.obj) : JS.value :=
  JS.Obj [("attachmentsEnabled", attachmentsEnabled input chatDetails);
          ("richMessagingEnabled", richMessagingEnabled input)].

(** *** [openChatSession], up to the promise it returns

    Builds the session object, registers the close handler (which
    triggers [endChat]) and starts opening the connection.  The
    constructor does not fail. *)
Definition openChatSession (chatDetails : JS.obj) (name region stage : JS.value)
  (customizationParams : JS.obj) (w : World) : ChatSession * World :=
  let s := {| ref := fresh w; details := chatDetails; name := name;
              region := region; stage := stage;
              customization := customizationParams |} in
  (s, record_call (CallOpenChatSession s)
        (record_call (CallOnChatClose s) (with_fresh (S (fresh w)) w))).

(** *** [submitChatInitiation] as a resumption *)

(** Where an attempt stands: suspended at one of its two [await]s, with
    the local variables that are live there, or finished (the returned
    promise is resolved, or rejected with what escaped the [catch]). *)
Inductive Task : Type :=
| AwaitInitiateChat (input customizationParams : JS.obj)
    (success : callback ChatSession) (failure : callback JS.value)
| AwaitOpenChatSession (input chatDetails : JS.obj) (session : ChatSession)
    (success : callback ChatSession) (failure : callback JS.value)
| Finished (result : completion).

Definition customizationParamsOf (input : JS.obj) : JS.obj :=
  [("authenticationRedirectUri",
    JS.or_ (JS.prop input "authenticationRedirectUri") (JS.Str ""));
   ("authenticationIdentityProvider",
    JS.or_ (JS.prop input "authenticationIdentityProvider") (JS.Str ""))].

(** The call [this.openChatSession(chatDetails, input.name, input.region,
    input.stage, customizationParams)] and the suspension on its promise. *)
Definition start_open (input chatDetails customizationParams : JS.obj)
  (success : callback ChatSession) (failure : callback JS.value)
  (c : Component) (w : World) : Component * World * Task :=
  let (session, w1) :=
    openChatSession chatDetails (JS.prop input "name")
      (JS.prop input "region") (JS.prop input "stage")
      customizationParams w in
  (c, w1, AwaitOpenChatSession input chatDetails session success failure).

(** The synchronous prefix: everything that runs before the call
    returns its promise. *)
Definition submit_start (input : JS.obj) (success : callback ChatSession)
  (failure : callback JS.value) (c : Component) (w : World)
  : Component * World * Task :=
  let c1 := setState (only_status Initiating) c in
  let customizationParams := customizationParamsOf input in
  if JS.truthy (JS.prop input "chatSessionParameters") then
    start_open input
      [("startChatResult", JS.prop input "chatSessionParameters")]
      customizationParams success failure c1 w
  else
    (c1, record_call (CallInitiateChat input) w,
     AwaitInitiateChat input customizationParams success failure).

(** The [catch] block. *)
Definition on_error (failure : callback JS.value) (error : JS.value)
  (c : Component) (w : World) : Component * World * Task :=
  let c1 := setState (only_status InitiateFailed) c in
  match failure with
  | None => (c1, w, Finished Returns)
  | Some f => (c1, record_call (CallFailure error) w, Finished (f error))
  end.

(** Resuming after [await initiateChat(input)]. *)
Definition resume_initiateChat (outcome : settled JS.obj)
  (input customizationParams : JS.obj) (success : callback ChatSession)
  (failure : callback JS.value) (c : Component) (w : World)
  : Component * World * Task :=
  match outcome with
  | Resolved chatDetails =>
      start_open input chatDetails customizationParams success failure c w
  | Rejected error => on_error failure error c w
  end.

(** Resuming after [await this.openChatSession(...)]. *)
Definition resume_openChatSession (outcome : settled unit)
  (input chatDetails : JS.obj) (session : ChatSession)
  (success : callback ChatSession) (failure : callback JS.value)
  (c : Component) (w : World) : Component * World * Task :=
  match outcome with
  | Resolved _ =>
      let w1 := setCurrentChatSessionInstance session w in
      let c1 :=
        setState {| set_status := Some Initiated;
                    set_chatSession := Some (Some session);
                    set_composerConfig :=
                      Some (composerConfigOf input chatDetails);
                    set_language := Some (effectiveLanguage input) |} c in
      match success with
      | None => (c1, w1, Finished Returns)
      | Some f =>
          let w2 := record_call (CallSuccess session) w1 in
          match f session with
          | Returns => (c1, w2, Finished Returns)
          | Throws error => on_error failure error c1 w2
          end
      end
  | Rejected error => on_error failure error c w
  end.

(** One [await] settles, as the remote side decides. *)
Definition settle (env : Env) (cfg : Component * World * Task)
  : Component * World * Task :=
  match cfg with
  | (c, w, AwaitInitiateChat input customizationParams success failure) =>
      resume_initiateChat (initiateChat env input) input customizationParams
        success failure c w
  | (c, w, AwaitOpenChatSession input chatDetails session success failure) =>
      resume_openChatSession (openResult env session) input chatDetails
        session success failure c w
  | (c, w, Finished r) => (c, w, Finished r)
  end.

(** A whole attempt with nothing else running in between: the prefix and
    then its (at most two) [await]s. *)
Definition submitChatInitiation (env : Env) (input : JS.obj)
  (success : callback ChatSession) (failure : callback JS.value)
  (c : Component) (w : World) : Component * World * Task :=
  settle env (settle env (submit_start input success failure c w)).

Definition or_null (v : JS.value) : JS.value :=
  if JS.truthy v then v else JS.Null.

(** [initiateChatSession], the [initChat] handler: logs the metadata and
    starts the attempt without waiting for it. *)
Definition initiateChatSession (chatDetails : JS.obj)
  (success : callback ChatSession) (failure : callback JS.value)
  (c : Component) (w : World) : Component * World * Task :=
  let logContent :=
    JS.Obj [("contactFlowId", or_null (JS.prop chatDetails "contactFlowId"));
            ("instanceId", or_null (JS.prop chatDetails "instanceId"));
            ("region", or_null (JS.prop chatDetails "region"));
            ("stage", or_null (JS.prop chatDetails "stage"));
            ("featurePermissions",
             or_null (JS.prop chatDetails "featurePermissions"));
            ("apiGatewayEndpoint",
             or_null (JS.prop chatDetails "apiGatewayEndpoint"))] in
  submit_start chatDetails success failure c
    (info c "Chat session meta data:" [logContent] w).

(** *** Vocabulary of the statements *)

(** The descriptor an attempt works with: the wrapped session parameters
    when the input carries them, else what the Factory resolved to. *)
Inductive descriptor (env : Env) (input : JS.obj) : JS.obj -> Prop :=
| descriptor_prebuilt :
    JS.truthy (JS.prop input "chatSessionParameters") = true ->
    descriptor env input
      [("startChatResult", JS.prop input "chatSessionParameters")]
| descriptor_created chatDetails :
    JS.truthy (JS.prop input "chatSessionParameters") = false ->
    initiateChat env input = Resolved chatDetails ->
    descriptor env input chatDetails.

(** The session object an attempt started in world [w] builds from a
    descriptor. *)
Definition session_of (input chatDetails : JS.obj) (w : World) : ChatSession :=
  {| ref := fresh w; details := chatDetails; name := JS.prop input "name";
     region := JS.prop input "region"; stage := JS.prop input "stage";
     customization := customizationParamsOf input |}.

(** An attempt fails with [error]: the Factory rejects, or a descriptor
    is obtained and opening the session rejects. *)
Inductive attempt_fails (env : Env) (input : JS.obj) (w : World)
  (error : JS.value) : Prop :=
| fails_at_factory :
    JS.truthy (JS.prop input "chatSessionParameters") = false ->
    initiateChat env input = Rejected error ->
    attempt_fails env input w error
| fails_at_open chatDetails :
    descriptor env input chatDetails ->
    openResult env (session_of input chatDetails w) = Rejected error ->
    attempt_fails env input w error.

(** Both steps succeed, with descriptor [chatDetails]. *)
Definition attempt_succeeds (env : Env) (input : JS.obj) (w : World)
  (chatDetails : JS.obj) : Prop :=
  descriptor env input chatDetails /\
  openResult env (session_of input chatDetails w) = Resolved tt.

Definition success_calls (l : list call) : list ChatSession :=
  flat_map (fun c => match c with CallSuccess s => [s] | _ => [] end) l.

Definition failure_calls (l : list call) : list JS.value :=
  flat_map (fun c => match c with CallFailure e => [e] | _ => [] end) l.

Definition factory_calls (l : list call) : list JS.obj :=
  flat_map (fun c => match c with CallInitiateChat i => [i] | _ => [] end) l.

Definition open_calls (l : list call) : list ChatSession :=
  flat_map (fun c => match c with CallOpenChatSession s => [s] | _ => [] end)
    l.

(** The callback returns normally when it is given. *)
Definition returns_normally {A : Type} (cb : callback A) (a : A) : Prop :=
  match cb with
  | None => True
  | Some f => f a = Returns
  end.

Definition is_finished (t : Task) : Prop :=
  match t with
  | Finished _ => True
  | _ => False
  end.

(** Whether a record's feature-permission mapping marks the attachments
    capability: the mapping is there (truthy) and its entry is truthy. *)
Definition marked (o : JS.obj) : bool :=
  JS.truthy (JS.prop o "featurePermissions") &&
  JS.truthy (JS.index (JS.prop o "featurePermissions") ATTACHMENTS).

(** The three parts of where an attempt stands. *)
Definition component_of (cfg : Component * World * Task) : Component :=
  fst (fst cfg).
Definition world_of (cfg : Component * World * Task) : World :=
  snd (fst cfg).
Definition task_of (cfg : Component * World * Task) : Task :=
  snd cfg.

(** The world at the moment the attempt waits for the session to open:
    the Factory was called unless the input carried session parameters,
    and the session object was built and told to open. *)
Definition world_at_open (input chatDetails : JS.obj) (w : World) : World :=
  let s := session_of input chatDetails w in
  let w0 :=
    if JS.truthy (JS.prop input "chatSessionParameters") then w
    else record_call (CallInitiateChat input) w in
  record_call (CallOpenChatSession s)
    (record_call (CallOnChatClose s) (with_fresh (S (fresh w)) w0)).

(** *** Sample inputs

    A freshly mounted component in an empty world, remote sides that
    succeed or fail, and a few initiation inputs. *)

Definition empty_world : World :=
  {| current := None; bus := []; fresh := 0; log := []; calls := [] |}.

Definition mounted_component : Component :=
  fst (constructor false empty_world).

Definition mounted_world : World :=
  snd (constructor false empty_world).

Definition logging_component : Component :=
  fst (constructor true empty_world).

Definition created_descriptor : JS.obj :=
  [("startChatResult",
    JS.Obj [("ContactId", JS.Str "c1"); ("ParticipantToken", JS.Str "t1")])].

Definition remote_ok : Env :=
  {| initiateChat := fun _ => Resolved created_descriptor;
     openResult := fun _ => Resolved tt |}.

Definition network_error : JS.value :=
  JS.Obj [("message", JS.Str "Network Error")].

Definition factory_down : Env :=
  {| initiateChat := fun _ => Rejected network_error;
     openResult := fun _ => Resolved tt |}.

Definition input_A : JS.obj :=
  [("contactFlowId", JS.Str "cf1"); ("instanceId", JS.Str "i1")].

Definition prebuilt_parameters : JS.obj :=
  [("ContactId", JS.Str "c1");
   ("featurePermissions", JS.Obj [("ATTACHMENTS", JS.Bool true)])].

Definition input_B : JS.obj :=
  [("chatSessionParameters", JS.Obj prebuilt_parameters)].

Definition input_empty_language : JS.obj :=
  [("contactFlowId", JS.Str "cf1"); ("instanceId", JS.Str "i1");
   ("language", JS.Str "")].

Definition handler_bug : JS.value :=
  JS.Obj [("message", JS.Str "handler bug")].

Definition throwing_callback : callback ChatSession :=
  Some (fun _ => Throws handler_bug).

Definition quiet_callback : callback ChatSession :=
  Some (fun _ => Returns).

(** *** [render] *)

(** What [render] returns: the loader, the failure box with its "Go
    Back" button, or the [Chat] element with its listed attributes.
    Handlers are kept as the functions they are; [props] is the spread
    [{...this.props}], which comes after the listed attributes.  The
    [changeLanguage] attribute is handed down from [LanguageContext] and
    is no part of the component. *)
Inductive View : Type :=
| LoaderView
| FailedView (onClick : Component -> World -> Component * World)
| ChatView (chatSession : option ChatSession) (composerConfig : JS.value)
    (onEnded : Component -> World -> Component * World)
    (language : JS.value) (props : JS.obj).

Definition render (props : JS.obj) (c : Component) : View :=
  match status (state c) with
  | NotInitiated => LoaderView
  | Initiating => LoaderView
  | InitiateFailed => FailedView resetState
  | Initiated =>
      ChatView (chatSession (state c)) (composerConfig (state c)) resetState
        (language (state c)) props
  end.

(** *** More vocabulary *)

(** An attempt run up to its second [await]: the prefix, and the
    settling of the Factory call when there is one. *)
Definition run_until_open (env : Env) (input : JS.obj)
  (success : callback ChatSession) (failure : callback JS.value)
  (c : Component) (w : World) : Component * World * Task :=
  if JS.truthy (JS.prop input "chatSessionParameters") then
    submit_start input success failure c w
  else settle env (submit_start input success failure c w).

(** Settling a suspended attempt in the state and world of the moment. *)
Definition settle_in (env : Env) (t : Task) (cw : Component * World)
  : Component * World * Task :=
  settle env (fst cw, snd cw, t).

(** A reference that was allocated before [w]'s next one. *)
Definition allocated (w : World) (s : option ChatSession) : Prop :=
  forall s0, s = Some s0 -> ref s0 < fresh w.

(** Every reference held anywhere is older than the next one to be
    allocated. *)
Definition well_formed (c : Component) (w : World) : Prop :=
  allocated w (chatSession (state c)) /\
  allocated w (current w) /\
  Forall (fun entry => snd entry < fresh w) (bus w) /\
  submitChatInitiationHandler c < fresh w.

(** [n] times: construct a component, then tear it down. *)
Fixpoint remount (n : nat) (has_logger : bool) (w : World) : World :=
  match n with
  | 0 => w
  | S k =>
      let (c, mounted) := constructor has_logger w in
      remount k has_logger (componentWillUnmount c mounted)
  end.

(** The calls an attempt added to the history. *)
Definition added (before after : list call) (new : list call) : Prop :=
  after = before ++ new.

Definition transport_error : JS.value :=
  JS.Obj [("message", JS.Str "WebSocket closed")].

Definition transport_down : Env :=
  {| initiateChat := fun _ => Resolved created_descriptor;
     openResult := fun _ => Rejected transport_error |}.

Definition noisy_failure : callback JS.value :=
  Some (fun e => Throws e).

(** A transport that refuses the session with reference 2 and accepts
    every other one. *)
Definition flaky_transport : Env :=
  {| initiateChat := fun _ => Resolved created_descriptor;
     openResult :=
       fun s =>
         if Nat.eqb (ref s) 2 then Rejected transport_error
         else Resolved tt |}.

Definition markdown_only : JS.obj :=
  [("supportedMessagingContentTypes", JS.Str "text/markdown")].

Definition plain_only : JS.obj :=
  [("supportedMessagingContentTypes", JS.Str "text/plain")].

Definition plain_and_markdown : JS.obj :=
  [("supportedMessagingContentTypes", JS.Str "text/plain,text/markdown")].

(** *** When [setState] takes effect

    React, in the legacy mode this class component runs in, merges a
    [setState] patch at once when the call is made outside a batch.
    Inside a batch (a React event handler, or code run under
    [batchedUpdates]) it queues the patch, [this.state] stays what it
    was, and the queue is merged in order when the batch ends, which is
    when the handler returns and so before any promise continuation
    runs. *)
Inductive Scheduled : Type :=
| Idle (c : Component)
| InBatch (c : Component) (queue : list Patch).

(** What [this.state] and the screen show at this moment. *)
Definition observed (m : Scheduled) : Component :=
  match m with
  | Idle c => c
  | InBatch c _ => c
  end.

Definition setState_in (p : Patch) (m : Scheduled) : Scheduled :=
  match m with
  | Idle c => Idle (setState p c)
  | InBatch c queue => InBatch c (queue ++ [p])
  end.

(** The component once the batch, if any, has ended. *)
Definition end_of_batch (m : Scheduled) : Component :=
  match m with
  | Idle c => c
  | InBatch c queue => fold_left (fun c0 p => setState p c0) queue c
  end.

(** The synchronous prefix of [submitChatInitiation] again, now with the
    moment at which its [setState] takes effect. *)
Definition submit_start_in (input : JS.obj) (success : callback ChatSession)
  (failure : callback JS.value) (m : Scheduled) (w : World)
  : Scheduled * World * Task :=
  let m1 := setState_in (only_status Initiating) m in
  let customizationParams := customizationParamsOf input in
  if JS.truthy (JS.prop input "chatSessionParameters") then
    let chatDetails :=
      [("startChatResult", JS.prop input "chatSessionParameters")] in
    let (session, w1) :=
      openChatSession chatDetails (JS.prop input "name")
        (JS.prop input "region") (JS.prop input "stage")
        customizationParams w in
    (m1, w1, AwaitOpenChatSession input chatDetails session success failure)
  else
    (m1, record_call (CallInitiateChat input) w,
     AwaitInitiateChat input customizationParams success failure).

Definition scheduled_of (r : Scheduled * World * Task) : Scheduled :=
  fst (fst r).


(** The fields of the input that the [initChat] handler logs. *)
Definition metadata_keys : list string :=
  ["contactFlowId"; "instanceId"; "region"; "stage"; "featurePermissions";
   "apiGatewayEndpoint"].

Definition logged_key (k : string) : bool :=
  existsb (String.eqb k) metadata_keys.

(** ** Splitting at commas *)

Example split_comma_two_types :
  JS.split_comma "text/plain,text/markdown" = ["text/plain"; "text/markdown"].
Proof. reflexivity. Qed.

Example split_comma_empty_string : JS.split_comma "" = [""].
Proof. reflexivity. Qed.

Example split_comma_trailing_comma : JS.split_comma "a," = ["a"; ""].
Proof. reflexivity. Qed.

Example split_comma_keeps_spaces :
  JS.includes (JS.split_comma "text/plain, text/markdown") "text/markdown" =
  false.
Proof. reflexivity. Qed.

Lemma split_comma_not_nil (s : string) : JS.split_comma s <> [].
Proof.
  destruct s as [|c rest]; simpl; [discriminate|].
  destruct (Ascii.eqb c JS.comma); [discriminate|].
  destruct (JS.split_comma rest); discriminate.
Qed.

Lemma join_split_comma (s : string) : JS.join_comma (JS.split_comma s) = s.
Proof.
  induction s as [|c rest IH]; simpl; [reflexivity|].
  destruct (Ascii.eqb_spec c JS.comma) as [->|Hc].
  - pose proof (split_comma_not_nil rest) as Hne.
    destruct (JS.split_comma rest) as [|p ps]; [contradiction|].
    simpl in *. now rewrite IH.
  - pose proof (split_comma_not_nil rest) as Hne.
    destruct (JS.split_comma rest) as [|p ps]; [contradiction|].
    destruct ps as [|q qs]; simpl in *; now rewrite IH.
Qed.

Lemma split_comma_pieces_comma_free (s : string) :
  Forall JS.comma_free (JS.split_comma s).
Proof.
  induction s as [|c rest IH]; simpl.
  - repeat constructor.
  - destruct (Ascii.eqb_spec c JS.comma) as [->|Hc].
    + constructor; [exact I | exact IH].
    + destruct (JS.split_comma rest) as [|p ps].
      * repeat constructor; assumption.
      * inversion IH; subst. constructor; [split; assumption | assumption].
Qed.

Lemma split_comma_piece (p : string) (ps : list string) :
  JS.comma_free p ->
  JS.split_comma (String.append p (String JS.comma (JS.join_comma ps))) =
  p :: JS.split_comma (JS.join_comma ps).
Proof.
  induction p as [|c p IH]; simpl; intros Hp.
  - reflexivity.
  - destruct Hp as [Hc Hp].
    destruct (Ascii.eqb_spec c JS.comma) as [->|_]; [contradiction|].
    now rewrite (IH Hp).
Qed.

Lemma split_comma_single (p : string) :
  JS.comma_free p -> JS.split_comma p = [p].
Proof.
  induction p as [|c p IH]; simpl; intros Hp; [reflexivity|].
  destruct Hp as [Hc Hp].
  destruct (Ascii.eqb_spec c JS.comma) as [->|_]; [contradiction|].
  now rewrite (IH Hp).
Qed.

Lemma split_join_comma (pieces : list string) :
  pieces <> [] -> Forall JS.comma_free pieces ->
  JS.split_comma (JS.join_comma pieces) = pieces.
Proof.
  induction pieces as [|p ps IH]; intros Hne Hfree; [contradiction|].
  inversion Hfree as [|? ? Hp Hps]; subst.
  destruct ps as [|q qs].
  - simpl. now apply split_comma_single.
  - change (JS.join_comma (p :: q :: qs))
      with (String.append p (String JS.comma (JS.join_comma (q :: qs)))).
    rewrite split_comma_piece by assumption.
    rewrite IH; [reflexivity | discriminate | assumption].
Qed.

Lemma includes_In (pieces : list string) (x : string) :
  JS.includes pieces x = true <-> In x pieces.
Proof.
  unfold JS.includes. rewrite existsb_exists. split.
  - intros [y [Hin Heq]]. apply String.eqb_eq in Heq. now subst.
  - intros Hin. exists x. split; [assumption | apply String.eqb_refl].
Qed.

(** ** Filters over the call history *)

Lemma success_calls_app (l1 l2 : list call) :
  success_calls (l1 ++ l2) = success_calls l1 ++ success_calls l2.
Proof. apply flat_map_app. Qed.

Lemma failure_calls_app (l1 l2 : list call) :
  failure_calls (l1 ++ l2) = failure_calls l1 ++ failure_calls l2.
Proof. apply flat_map_app. Qed.

Lemma factory_calls_app (l1 l2 : list call) :
  factory_calls (l1 ++ l2) = factory_calls l1 ++ factory_calls l2.
Proof. apply flat_map_app. Qed.

Lemma open_calls_app (l1 l2 : list call) :
  open_calls (l1 ++ l2) = open_calls l1 ++ open_calls l2.
Proof. apply flat_map_app. Qed.

Create Rewrite HintDb calls.

#[local] Hint Rewrite success_calls_app failure_calls_app factory_calls_app
  open_calls_app app_nil_r : calls.

(** ** The course of one attempt *)

Lemma calls_world_at_open (input chatDetails : JS.obj) (w : World) :
  calls (world_at_open input chatDetails w) =
  calls w ++
  (if JS.truthy (JS.prop input "chatSessionParameters") then []
   else [CallInitiateChat input]) ++
  [CallOnChatClose (session_of input chatDetails w);
   CallOpenChatSession (session_of input chatDetails w)].
Proof.
  unfold world_at_open.
  destruct (JS.truthy (JS.prop input "chatSessionParameters")); simpl;
    rewrite <- ?app_assoc; reflexivity.
Qed.

Lemma current_world_at_open (input chatDetails : JS.obj) (w : World) :
  current (world_at_open input chatDetails w) = current w.
Proof.
  unfold world_at_open.
  destruct (JS.truthy (JS.prop input "chatSessionParameters")); reflexivity.
Qed.

Lemma on_error_finished (failure : callback JS.value) (error : JS.value)
  (c : Component) (w : World) :
  is_finished (task_of (on_error failure error c w)).
Proof. unfold on_error. destruct failure; exact I. Qed.

Lemma resume_openChatSession_finished (outcome : settled unit)
  (input chatDetails : JS.obj) (session : ChatSession)
  (success : callback ChatSession) (failure : callback JS.value)
  (c : Component) (w : World) :
  is_finished
    (task_of (resume_openChatSession outcome input chatDetails session
                success failure c w)).
Proof.
  unfold resume_openChatSession.
  destruct outcome as [u|error]; [|apply on_error_finished].
  destruct success as [f|]; [|exact I].
  destruct (f session); [exact I | apply on_error_finished].
Qed.

Lemma settle_finished (env : Env) (cfg : Component * World * Task) :
  is_finished (task_of cfg) -> settle env cfg = cfg.
Proof.
  destruct cfg as [[c w] t]. destruct t; simpl; intros H;
    [contradiction | contradiction | reflexivity].
Qed.

(** With a descriptor in hand, the attempt reaches its second [await]
    and goes on from there as the opening settles. *)
Lemma attempt_reaches_open (env : Env) (input : JS.obj)
  (success : callback ChatSession) (failure : callback JS.value)
  (c : Component) (w : World) (chatDetails : JS.obj) :
  descriptor env input chatDetails ->
  submitChatInitiation env input success failure c w =
  resume_openChatSession (openResult env (session_of input chatDetails w))
    input chatDetails (session_of input chatDetails w) success failure
    (setState (only_status Initiating) c)
    (world_at_open input chatDetails w).
Proof.
  intros Hd. unfold submitChatInitiation, submit_start, world_at_open.
  destruct Hd as [Hp | d Hp Hf]; rewrite Hp.
  - apply settle_finished. apply resume_openChatSession_finished.
  - simpl. rewrite Hf. simpl. reflexivity.
Qed.

(** When the Factory rejects, the attempt goes straight to the [catch]. *)
Lemma attempt_stops_at_factory (env : Env) (input : JS.obj)
  (success : callback ChatSession) (failure : callback JS.value)
  (c : Component) (w : World) (error : JS.value) :
  JS.truthy (JS.prop input "chatSessionParameters") = false ->
  initiateChat env input = Rejected error ->
  submitChatInitiation env input success failure c w =
  on_error failure error (setState (only_status Initiating) c)
    (record_call (CallInitiateChat input) w).
Proof.
  intros Hp Hf. unfold submitChatInitiation, submit_start.
  rewrite Hp. simpl. rewrite Hf. simpl.
  destruct failure; reflexivity.
Qed.

(** What the [catch] block does, field by field. *)
Lemma on_error_effect (failure : callback JS.value) (error : JS.value)
  (c : Component) (w : World) :
  state (component_of (on_error failure error c w)) =
    merge (only_status InitiateFailed) (state c) /\
  current (world_of (on_error failure error c w)) = current w /\
  calls (world_of (on_error failure error c w)) =
    calls w ++
    match failure with Some _ => [CallFailure error] | None => [] end /\
  task_of (on_error failure error c w) =
    Finished match failure with Some f => f error | None => Returns end.
Proof.
  unfold on_error. destruct failure; simpl; rewrite ?app_nil_r; auto.
Qed.


(** ** Failed attempts *)

(** C1.  When the Factory call or the opening of the session fails with
    [error], the attempt finishes with status [InitiateFailed]; the
    failure callback, when given, is called once, with that very [error],
    and the success callback is not called; the registry's current
    session is what it was before the attempt; and the state's session
    reference is what it was before the attempt, hence (references held
    before the attempt being older than the ones it allocates) not the
    session built during it. *)
Theorem failed_attempt_ends_InitiateFailed (env : Env) (input : JS.obj)
  (success : callback ChatSession) (failure : callback JS.value)
  (c : Component) (w : World) (error : JS.value) :
  attempt_fails env input w error ->
  let cfg := submitChatInitiation env input success failure c w in
  status (state (component_of cfg)) = InitiateFailed /\
  failure_calls (calls (world_of cfg)) =
    failure_calls (calls w) ++
    match failure with Some _ => [error] | None => [] end /\
  success_calls (calls (world_of cfg)) = success_calls (calls w) /\
  task_of cfg =
    Finished match failure with Some f => f error | None => Returns end /\
  current (world_of cfg) = current w /\
  chatSession (state (component_of cfg)) = chatSession (state c) /\
  ((forall s0, chatSession (state c) = Some s0 -> ref s0 < fresh w) ->
   forall s chatDetails,
     chatSession (state (component_of cfg)) = Some s ->
     ref s <> ref (session_of input chatDetails w)).
Proof.
  intros Hfail cfg.
  assert (Hcatch : exists c0 w0,
             cfg = on_error failure error c0 w0 /\
             chatSession (state c0) = chatSession (state c) /\
             current w0 = current w /\
             failure_calls (calls w0) = failure_calls (calls w) /\
             success_calls (calls w0) = success_calls (calls w)).
  { subst cfg. destruct Hfail as [Hp Hf | chatDetails Hd Ho].
    - rewrite (attempt_stops_at_factory env input success failure c w error)
        by assumption.
      eexists _, _. split; [reflexivity|]. simpl.
      autorewrite with calls. simpl. autorewrite with calls. auto.
    - rewrite (attempt_reaches_open env input success failure c w chatDetails)
        by assumption.
      rewrite Ho. simpl.
      eexists _, _. split; [reflexivity|].
      rewrite current_world_at_open, calls_world_at_open.
      autorewrite with calls.
      destruct (JS.truthy (JS.prop input "chatSessionParameters"));
        simpl; autorewrite with calls; auto. }
  destruct Hcatch as (c0 & w0 & -> & Hsess & Hcur & Hfc & Hsc).
  destruct (on_error_effect failure error c0 w0) as (Hst & Hcur' & Hcalls & Ht).
  rewrite Hst, Hcur', Hcalls, Ht. autorewrite with calls.
  rewrite Hfc, Hsc. simpl.
  repeat split; auto.
  - destruct failure; simpl; autorewrite with calls; reflexivity.
  - destruct failure; simpl; autorewrite with calls; reflexivity.
  - intros Hold s chatDetails Hs Heq. rewrite Hsess in Hs.
    apply Hold in Hs. simpl in Heq. lia.
Qed.

(** C10.  The [catch] block writes the status and nothing else in the
    state: entered in any state, it leaves the session reference, the
    composer configuration and the language as they are.  So an attempt
    that fails at the Factory or at the opening ends in the state it
    started from with the status [InitiateFailed], still holding the
    session of an earlier successful attempt if there was one. *)
Theorem error_path_writes_only_status (env : Env) (input : JS.obj)
  (success : callback ChatSession) (failure : callback JS.value)
  (c : Component) (w : World) (error : JS.value) :
  attempt_fails env input w error ->
  (forall c0 w0,
     state (component_of (on_error failure error c0 w0)) =
     {| chatSession := chatSession (state c0);
        composerConfig := composerConfig (state c0);
        status := InitiateFailed;
        language := language (state c0) |}) /\
  state (component_of (submitChatInitiation env input success failure c w)) =
  {| chatSession := chatSession (state c);
     composerConfig := composerConfig (state c);
     status := InitiateFailed;
     language := language (state c) |}.
Proof.
  intros Hfail. split.
  - intros c0 w0. destruct (on_error_effect failure error c0 w0) as [-> _].
    reflexivity.
  - destruct Hfail as [Hp Hf | chatDetails Hd Ho].
    + rewrite (attempt_stops_at_factory env input success failure c w error)
        by assumption.
      destruct (on_error_effect failure error
                  (setState (only_status Initiating) c)
                  (record_call (CallInitiateChat input) w)) as [-> _].
      reflexivity.
    + rewrite (attempt_reaches_open env input success failure c w chatDetails)
        by assumption.
      rewrite Ho. simpl resume_openChatSession.
      destruct (on_error_effect failure error
                  (setState (only_status Initiating) c)
                  (world_at_open input chatDetails w)) as [-> _].
      reflexivity.
Qed.


(** ** Successful attempts *)

(** The state and the registry once the opening has resolved, whatever
    the success callback does afterwards. *)
Lemma opened_attempt_state (env : Env) (input : JS.obj)
  (success : callback ChatSession) (failure : callback JS.value)
  (c : Component) (w : World) (chatDetails : JS.obj) :
  attempt_succeeds env input w chatDetails ->
  let cfg := submitChatInitiation env input success failure c w in
  let session := session_of input chatDetails w in
  chatSession (state (component_of cfg)) = Some session /\
  composerConfig (state (component_of cfg)) =
    composerConfigOf input chatDetails /\
  language (state (component_of cfg)) = effectiveLanguage input /\
  current (world_of cfg) = Some session /\
  status (state (component_of cfg)) =
    match success with
    | None => Initiated
    | Some f => match f session with
                | Returns => Initiated
                | Throws _ => InitiateFailed
                end
    end.
Proof.
  intros [Hd Ho] cfg session. subst cfg session.
  rewrite (attempt_reaches_open env input success failure c w chatDetails)
    by assumption.
  rewrite Ho. unfold resume_openChatSession.
  destruct success as [f|]; [|simpl; auto].
  destruct (f (session_of input chatDetails w)) as [|thrown];
    [simpl; auto|].
  unfold on_error. destruct failure; simpl; auto.
Qed.

(** C2, as the code has it.  When the Factory call (or the session
    parameters of the input) and the opening of the session both succeed
    and the success callback, when given, returns normally, the attempt
    finishes with status [Initiated]; the registry's current session and
    the state's session are the session the attempt built; the success
    callback is called exactly once, with that session, and the failure
    callback is not called; and the composer configuration in the state
    is [composerConfigOf] of the input and the descriptor, a function of
    those two alone. *)
Theorem successful_attempt_ends_Initiated (env : Env) (input : JS.obj)
  (success : callback ChatSession) (failure : callback JS.value)
  (c : Component) (w : World) (chatDetails : JS.obj) :
  attempt_succeeds env input w chatDetails ->
  returns_normally success (session_of input chatDetails w) ->
  let cfg := submitChatInitiation env input success failure c w in
  let session := session_of input chatDetails w in
  status (state (component_of cfg)) = Initiated /\
  current (world_of cfg) = Some session /\
  chatSession (state (component_of cfg)) = Some session /\
  success_calls (calls (world_of cfg)) =
    success_calls (calls w) ++
    match success with Some _ => [session] | None => [] end /\
  failure_calls (calls (world_of cfg)) = failure_calls (calls w) /\
  composerConfig (state (component_of cfg)) =
    composerConfigOf input chatDetails /\
  task_of cfg = Finished Returns.
Proof.
  intros Hok Hret cfg session. subst session.
  destruct (opened_attempt_state env input success failure c w chatDetails Hok)
    as (Hsess & Hcfg & _ & Hcur & Hstatus).
  fold cfg in Hsess, Hcfg, Hcur, Hstatus.
  assert (Hcalls : calls (world_of cfg) =
                   calls (world_at_open input chatDetails w) ++
                   match success with
                   | Some _ => [CallSuccess (session_of input chatDetails w)]
                   | None => []
                   end /\ task_of cfg = Finished Returns).
  { subst cfg. destruct Hok as [Hd Ho].
    rewrite (attempt_reaches_open env input success failure c w chatDetails)
      by assumption.
    rewrite Ho. unfold resume_openChatSession.
    destruct success as [f|]; simpl in *.
    - rewrite Hret. simpl. auto.
    - rewrite app_nil_r. auto. }
  destruct Hcalls as [Hcalls Htask].
  rewrite Hstatus, Hcalls, calls_world_at_open.
  repeat split; auto.
  - destruct success as [f|]; [|reflexivity].
    simpl in Hret. now rewrite Hret.
  - autorewrite with calls.
    destruct (JS.truthy (JS.prop input "chatSessionParameters"));
      destruct success; simpl; autorewrite with calls; reflexivity.
  - autorewrite with calls.
    destruct (JS.truthy (JS.prop input "chatSessionParameters"));
      destruct success; simpl; autorewrite with calls; reflexivity.
Qed.

(** C9, as the code has it.  After the Factory call and the opening have
    both succeeded, the language in the state is [input.language] when
    that value is truthy (for a string: not empty) and ["en_US"] when it
    is omitted or otherwise falsy. *)
Theorem successful_attempt_language (env : Env) (input : JS.obj)
  (success : callback ChatSession) (failure : callback JS.value)
  (c : Component) (w : World) (chatDetails : JS.obj) :
  attempt_succeeds env input w chatDetails ->
  let stored :=
    language
      (state (component_of (submitChatInitiation env input success failure
                              c w))) in
  (JS.truthy (JS.prop input "language") = true ->
   stored = JS.prop input "language") /\
  (JS.truthy (JS.prop input "language") = false ->
   stored = JS.Str "en_US") /\
  (JS.prop input "language" = JS.Undefined -> stored = JS.Str "en_US").
Proof.
  intros Hok stored.
  destruct (opened_attempt_state env input success failure c w chatDetails Hok)
    as (_ & _ & Hlang & _).
  subst stored. rewrite Hlang. unfold effectiveLanguage, JS.or_.
  repeat split.
  - intros ->. reflexivity.
  - intros ->. reflexivity.
  - intros ->. reflexivity.
Qed.

(** C4, as the code has it.  When the input carries (truthy) session
    parameters, the attempt never calls the Factory, and the descriptor
    the session is built from and opened with is the object
    [{startChatResult: chatSessionParameters}], which carries no
    feature-permission mapping of its own. *)
Theorem prebuilt_parameters_skip_factory (env : Env) (input : JS.obj)
  (success : callback ChatSession) (failure : callback JS.value)
  (c : Component) (w : World) :
  JS.truthy (JS.prop input "chatSessionParameters") = true ->
  let cfg := submitChatInitiation env input success failure c w in
  let chatDetails :=
    [("startChatResult", JS.prop input "chatSessionParameters")] in
  factory_calls (calls (world_of cfg)) = factory_calls (calls w) /\
  open_calls (calls (world_of cfg)) =
    open_calls (calls w) ++ [session_of input chatDetails w] /\
  details (session_of input chatDetails w) = chatDetails /\
  JS.prop chatDetails "featurePermissions" = JS.Undefined.
Proof.
  intros Hp cfg chatDetails.
  assert (Hd : descriptor env input chatDetails) by now constructor.
  assert (Hcalls : exists extra,
             calls (world_of cfg) =
             calls (world_at_open input chatDetails w) ++ extra /\
             factory_calls extra = [] /\ open_calls extra = []).
  { subst cfg.
    rewrite (attempt_reaches_open env input success failure c w chatDetails)
      by assumption.
    unfold resume_openChatSession.
    destruct (openResult env (session_of input chatDetails w)) as [u|error].
    - destruct success as [f|].
      + destruct (f (session_of input chatDetails w)) as [|thrown].
        * eexists. simpl. split; [reflexivity|]. auto.
        * unfold on_error. destruct failure; simpl.
          -- exists [CallSuccess (session_of input chatDetails w);
                     CallFailure thrown].
             rewrite <- app_assoc. auto.
          -- eexists. split; [reflexivity|]. auto.
      + exists []. simpl. rewrite app_nil_r. auto.
    - unfold on_error. destruct failure; simpl.
      + eexists. split; [reflexivity|]. auto.
      + exists []. rewrite app_nil_r. auto. }
  destruct Hcalls as (extra & -> & Hf & Ho).
  rewrite calls_world_at_open, Hp. autorewrite with calls.
  rewrite Hf, Ho. simpl. autorewrite with calls. auto.
Qed.

(** ** The synchronous prefix *)


Lemma end_of_batch_setState_in (p : Patch) (m : Scheduled) :
  end_of_batch (setState_in p m) = setState p (end_of_batch m).
Proof.
  destruct m as [c|c queue]; simpl; [reflexivity|].
  now rewrite fold_left_app.
Qed.



(** ** Truthiness of [&&] and [||] *)

Lemma truthy_and (a b : JS.value) :
  JS.truthy (JS.and_ a b) = JS.truthy a && JS.truthy b.
Proof. unfold JS.and_. destruct (JS.truthy a) eqn:Ha; simpl; auto. Qed.

Lemma truthy_or (a b : JS.value) :
  JS.truthy (JS.or_ a b) = JS.truthy a || JS.truthy b.
Proof. unfold JS.or_. destruct (JS.truthy a) eqn:Ha; simpl; auto. Qed.

Lemma and_is_true (a b : JS.value) :
  JS.and_ a b = JS.Bool true -> b = JS.Bool true.
Proof.
  unfold JS.and_. destruct (JS.truthy a) eqn:Ha; [auto|].
  intros ->. discriminate Ha.
Qed.

Lemma or_is_true (a b : JS.value) :
  JS.or_ a b = JS.Bool true ->
  a = JS.Bool true \/ (JS.truthy a = false /\ b = JS.Bool true).
Proof. unfold JS.or_. destruct (JS.truthy a) eqn:Ha; auto. Qed.

(** ** Feature flags *)

(** C5, as the code has it.  The derived [attachmentsEnabled] value is
    truthy exactly when the input's mapping or the descriptor's mapping
    marks the attachments capability with a truthy value; it is the
    boolean [true] exactly when the input marks the capability [true], or
    the input does not mark it and the descriptor marks it [true]; and
    when both mappings are absent it is [undefined], a falsy value. *)
Theorem attachmentsEnabled_truthy_iff_marked (input chatDetails : JS.obj) :
  JS.truthy (attachmentsEnabled input chatDetails) =
    marked input || marked chatDetails /\
  (attachmentsEnabled input chatDetails = JS.Bool true <->
   JS.index (JS.prop input "featurePermissions") ATTACHMENTS = JS.Bool true \/
   (marked input = false /\
    JS.index (JS.prop chatDetails "featurePermissions") ATTACHMENTS =
    JS.Bool true)) /\
  (JS.prop input "featurePermissions" = JS.Undefined ->
   JS.prop chatDetails "featurePermissions" = JS.Undefined ->
   attachmentsEnabled input chatDetails = JS.Undefined).
Proof.
  unfold attachmentsEnabled, marked.
  set (fi := JS.prop input "featurePermissions").
  set (fd := JS.prop chatDetails "featurePermissions").
  repeat split.
  - now rewrite truthy_or, !truthy_and.
  - intros H. apply or_is_true in H. destruct H as [H | [Hfalse H]].
    + left. now apply and_is_true in H.
    + right. rewrite truthy_and in Hfalse. split; [exact Hfalse|].
      now apply and_is_true in H.
  - intros [Hi | [Hm Hd]].
    + assert (Hfi : JS.truthy fi = true).
      { destruct fi; simpl in Hi; try discriminate Hi. reflexivity. }
      unfold JS.or_, JS.and_. rewrite Hfi, Hi. reflexivity.
    + assert (Hfd : JS.truthy fd = true).
      { destruct fd; simpl in Hd; try discriminate Hd. reflexivity. }
      rewrite <- truthy_and in Hm.
      unfold JS.or_ at 1. rewrite Hm.
      unfold JS.and_. rewrite Hfd. exact Hd.
  - intros Hi Hd. subst fi fd. rewrite Hi, Hd. reflexivity.
Qed.

(** C6.  With a markdown content-type literal that is not the empty
    string, [richMessagingEnabled] is a boolean; it is [true] exactly
    when [supportedMessagingContentTypes] is a string that is the
    comma-joined form of comma-free entries one of which is the literal;
    and it is [false] when the field is absent, when it is not a string,
    and when it is the empty string. *)
Theorem richMessagingEnabled_iff_markdown_entry (input : JS.obj) :
  TEXT_MARKDOWN <> "" ->
  (richMessagingEnabled input = JS.Bool true <->
   exists s entries,
     JS.prop input "supportedMessagingContentTypes" = JS.Str s /\
     JS.join_comma entries = s /\
     Forall JS.comma_free entries /\
     In TEXT_MARKDOWN entries) /\
  (richMessagingEnabled input = JS.Bool true \/
   richMessagingEnabled input = JS.Bool false) /\
  (JS.prop input "supportedMessagingContentTypes" = JS.Undefined ->
   richMessagingEnabled input = JS.Bool false) /\
  (JS.is_string (JS.prop input "supportedMessagingContentTypes") = false ->
   richMessagingEnabled input = JS.Bool false) /\
  (JS.prop input "supportedMessagingContentTypes" = JS.Str "" ->
   richMessagingEnabled input = JS.Bool false).
Proof.
  intros Hmd. unfold richMessagingEnabled.
  set (v := JS.prop input "supportedMessagingContentTypes").
  repeat split.
  - destruct v as [| |b|n|s|o]; try discriminate.
    intros H. injection H as H. apply includes_In in H.
    exists s, (JS.split_comma s). repeat split; auto.
    + apply join_split_comma.
    + apply split_comma_pieces_comma_free.
  - intros (s & entries & Hv & Hjoin & Hfree & Hin). rewrite Hv.
    f_equal. apply includes_In. subst s.
    rewrite split_join_comma; auto.
    intros ->. contradiction.
  - destruct v as [| |b|n|s|o]; auto.
    destruct (JS.includes (JS.split_comma s) TEXT_MARKDOWN); auto.
  - intros ->. reflexivity.
  - destruct v as [| |b|n|s|o]; simpl; auto. discriminate.
  - intros ->. simpl.
    destruct (String.eqb_spec TEXT_MARKDOWN "") as [E|_];
      [contradiction | reflexivity].
Qed.

(** ** Every way an attempt can go *)

Lemma descriptor_or_rejected (env : Env) (input : JS.obj) :
  (exists chatDetails, descriptor env input chatDetails) \/
  (exists error,
     JS.truthy (JS.prop input "chatSessionParameters") = false /\
     initiateChat env input = Rejected error).
Proof.
  destruct (JS.truthy (JS.prop input "chatSessionParameters")) eqn:Hp.
  - left. eexists. now apply descriptor_prebuilt.
  - destruct (initiateChat env input) as [chatDetails|error] eqn:Hf.
    + left. exists chatDetails. now apply descriptor_created.
    + right. exists error. auto.
Qed.

Lemma descriptor_unique (env : Env) (input d1 d2 : JS.obj) :
  descriptor env input d1 -> descriptor env input d2 -> d1 = d2.
Proof.
  intros H1 H2.
  destruct H1 as [Hp1 | d1 Hp1 Hf1]; destruct H2 as [Hp2 | d2 Hp2 Hf2];
    try reflexivity; try congruence.
Qed.

Lemma descriptor_not_rejected (env : Env) (input d : JS.obj)
  (error : JS.value) :
  descriptor env input d ->
  JS.truthy (JS.prop input "chatSessionParameters") = false ->
  initiateChat env input = Rejected error -> False.
Proof.
  intros Hd Hp Hf. destruct Hd as [Hp1 | d Hp1 Hf1]; congruence.
Qed.

(** X1.  The final status says exactly how the attempt went: it is
    [Initiated] when a descriptor was obtained, the session opened and
    the success callback (if any) returned, and [InitiateFailed] in every
    other case; and the attempt is finished after its two [await]s. *)
Theorem final_status_tells_the_outcome (env : Env) (input : JS.obj)
  (success : callback ChatSession) (failure : callback JS.value)
  (c : Component) (w : World) :
  let cfg := submitChatInitiation env input success failure c w in
  is_finished (task_of cfg) /\
  (status (state (component_of cfg)) = Initiated \/
   status (state (component_of cfg)) = InitiateFailed) /\
  (status (state (component_of cfg)) = Initiated <->
   exists chatDetails,
     attempt_succeeds env input w chatDetails /\
     returns_normally success (session_of input chatDetails w)).
Proof.
  intros cfg. subst cfg.
  destruct (descriptor_or_rejected env input)
    as [[d Hd] | [error [Hp Hf]]].
  - rewrite (attempt_reaches_open env input success failure c w d Hd).
    split; [apply resume_openChatSession_finished|].
    destruct (openResult env (session_of input d w)) as [[]|error] eqn:Ho.
    + assert (Hok : attempt_succeeds env input w d) by (split; assumption).
      unfold resume_openChatSession.
      destruct success as [f|].
      * destruct (f (session_of input d w)) as [|thrown] eqn:Hcb.
        -- simpl. split; [auto|]. split; [|reflexivity].
           intros _. exists d. split; [exact Hok | exact Hcb].
        -- destruct (on_error_effect failure thrown
                       (setState
                          {| set_status := Some Initiated;
                             set_chatSession :=
                               Some (Some (session_of input d w));
                             set_composerConfig :=
                               Some (composerConfigOf input d);
                             set_language :=
                               Some (effectiveLanguage input) |}
                          (setState (only_status Initiating) c))
                       (record_call (CallSuccess (session_of input d w))
                          (setCurrentChatSessionInstance
                             (session_of input d w)
                             (world_at_open input d w))))
             as [-> _].
           simpl. split; [auto|]. split; [discriminate|].
           intros (d' & [Hd' _] & Hret).
           rewrite <- (descriptor_unique env input d d' Hd Hd') in Hret.
           simpl in Hret. congruence.
      * simpl. split; [auto|]. split; [|reflexivity].
        intros _. exists d. split; [exact Hok | exact I].
    + simpl resume_openChatSession.
      destruct (on_error_effect failure error
                  (setState (only_status Initiating) c)
                  (world_at_open input d w)) as [-> _].
      simpl. split; [auto|]. split; [discriminate|].
      intros (d' & [Hd' Ho'] & _).
      rewrite <- (descriptor_unique env input d d' Hd Hd') in Ho'.
      congruence.
  - rewrite (attempt_stops_at_factory env input success failure c w error
               Hp Hf).
    split; [apply on_error_finished|].
    destruct (on_error_effect failure error
                (setState (only_status Initiating) c)
                (record_call (CallInitiateChat input) w)) as [-> _].
    simpl. split; [auto|]. split; [discriminate|].
    intros (d' & [Hd' _] & _).
    exfalso. exact (descriptor_not_rejected env input d' error Hd' Hp Hf).
Qed.

(** X2.  When the success callback throws, the session is open all the same:
    the registry and the state hold it, with its composer configuration
    and language, while the status reads [InitiateFailed]; and the
    failure callback, when given, is called with what was thrown, after
    the success callback. *)
Theorem throwing_success_callback_keeps_session (env : Env) (input : JS.obj)
  (f : ChatSession -> completion) (failure : callback JS.value)
  (c : Component) (w : World) (chatDetails : JS.obj) (thrown : JS.value) :
  attempt_succeeds env input w chatDetails ->
  f (session_of input chatDetails w) = Throws thrown ->
  let cfg := submitChatInitiation env input (Some f) failure c w in
  let session := session_of input chatDetails w in
  status (state (component_of cfg)) = InitiateFailed /\
  chatSession (state (component_of cfg)) = Some session /\
  composerConfig (state (component_of cfg)) =
    composerConfigOf input chatDetails /\
  language (state (component_of cfg)) = effectiveLanguage input /\
  current (world_of cfg) = Some session /\
  added (calls (world_at_open input chatDetails w)) (calls (world_of cfg))
    (CallSuccess session ::
     match failure with Some _ => [CallFailure thrown] | None => [] end) /\
  task_of cfg =
    Finished match failure with Some g => g thrown | None => Returns end.
Proof.
  intros Hok Hthrow cfg session. subst session.
  destruct (opened_attempt_state env input (Some f) failure c w chatDetails
              Hok) as (Hsess & Hcfg & Hlang & Hcur & Hstatus).
  fold cfg in Hsess, Hcfg, Hlang, Hcur, Hstatus.
  rewrite Hthrow in Hstatus.
  repeat split; auto.
  - subst cfg. destruct Hok as [Hd Ho].
    rewrite (attempt_reaches_open env input (Some f) failure c w chatDetails
               Hd).
    rewrite Ho. unfold resume_openChatSession. rewrite Hthrow.
    unfold on_error, added. destruct failure; simpl;
      rewrite <- ?app_assoc; reflexivity.
  - subst cfg. destruct Hok as [Hd Ho].
    rewrite (attempt_reaches_open env input (Some f) failure c w chatDetails
               Hd).
    rewrite Ho. unfold resume_openChatSession. rewrite Hthrow.
    unfold on_error. destruct failure; reflexivity.
Qed.

(** X3.  The promise [submitChatInitiation] returns is rejected only by a
    failure callback that throws: without a failure callback it always
    resolves, and with one it settles the way the one call to that
    callback ends. *)
Theorem promise_rejects_only_through_failure_callback (env : Env)
  (input : JS.obj) (success : callback ChatSession)
  (failure : callback JS.value) (c : Component) (w : World) :
  let cfg := submitChatInitiation env input success failure c w in
  (failure = None -> task_of cfg = Finished Returns) /\
  (forall thrown,
     task_of cfg = Finished (Throws thrown) ->
     exists g error,
       failure = Some g /\ g error = Throws thrown /\
       failure_calls (calls (world_of cfg)) =
       failure_calls (calls w) ++ [error]).
Proof.
  intros cfg.
  assert (Hshape :
            (task_of cfg = Finished Returns /\
             failure_calls (calls (world_of cfg)) = failure_calls (calls w)) \/
            (exists c0 w0 error,
               cfg = on_error failure error c0 w0 /\
               failure_calls (calls w0) = failure_calls (calls w))).
  { subst cfg.
    destruct (descriptor_or_rejected env input)
      as [[d Hd] | [error [Hp Hf]]].
    - rewrite (attempt_reaches_open env input success failure c w d Hd).
      assert (Hopen : failure_calls (calls (world_at_open input d w)) =
                      failure_calls (calls w)).
      { rewrite calls_world_at_open. autorewrite with calls.
        destruct (JS.truthy (JS.prop input "chatSessionParameters"));
          simpl; autorewrite with calls; reflexivity. }
      unfold resume_openChatSession.
      set (w1 := world_at_open input d w) in *. clearbody w1.
      destruct (openResult env (session_of input d w)) as [[]|error].
      + destruct success as [f|].
        * destruct (f (session_of input d w)) as [|thrown].
          -- left. simpl. autorewrite with calls. simpl.
             autorewrite with calls. auto.
          -- right. eexists _, _, thrown. split; [reflexivity|].
             simpl. autorewrite with calls. simpl.
             autorewrite with calls. exact Hopen.
        * left. simpl. auto.
      + right. eexists _, _, error. split; [reflexivity | exact Hopen].
    - rewrite (attempt_stops_at_factory env input success failure c w error
                 Hp Hf).
      right. eexists _, _, error. split; [reflexivity|].
      simpl. autorewrite with calls. simpl. autorewrite with calls.
      reflexivity. }
  destruct Hshape as [[Ht Hc] | (c0 & w0 & error & Hcfg & Hc)].
  - split; [auto|]. intros thrown H. rewrite Ht in H. discriminate H.
  - rewrite Hcfg.
    destruct (on_error_effect failure error c0 w0)
      as (_ & _ & Hcalls & Ht).
    rewrite Ht, Hcalls. split.
    + intros ->. reflexivity.
    + intros thrown H. destruct failure as [g|]; [|discriminate H].
      injection H as H. exists g, error.
      autorewrite with calls. simpl. rewrite Hc. auto.
Qed.

(** ** The calls of one attempt, in order *)

Lemma fresh_world_at_open (input chatDetails : JS.obj) (w : World) :
  fresh (world_at_open input chatDetails w) = S (fresh w).
Proof.
  unfold world_at_open.
  destruct (JS.truthy (JS.prop input "chatSessionParameters")); reflexivity.
Qed.

(** X4.  A successful attempt calls, in this order: the Factory with the
    input itself (unless the input carries session parameters), then
    [onChatClose] and [openChatSession] on one newly built session, then
    the success callback with that same session; nothing else, and the
    failure callback not at all. *)
Theorem successful_attempt_call_order (env : Env) (input : JS.obj)
  (success : callback ChatSession) (failure : callback JS.value)
  (c : Component) (w : World) (chatDetails : JS.obj) :
  attempt_succeeds env input w chatDetails ->
  returns_normally success (session_of input chatDetails w) ->
  let cfg := submitChatInitiation env input success failure c w in
  let session := session_of input chatDetails w in
  added (calls w) (calls (world_of cfg))
    ((if JS.truthy (JS.prop input "chatSessionParameters") then []
      else [CallInitiateChat input]) ++
     [CallOnChatClose session; CallOpenChatSession session] ++
     match success with Some _ => [CallSuccess session] | None => [] end) /\
  fresh (world_of cfg) = S (fresh w).
Proof.
  intros [Hd Ho] Hret cfg session. subst cfg session.
  rewrite (attempt_reaches_open env input success failure c w chatDetails Hd).
  rewrite Ho.
  pose proof (calls_world_at_open input chatDetails w) as Hcalls.
  pose proof (fresh_world_at_open input chatDetails w) as Hfresh.
  set (w1 := world_at_open input chatDetails w) in *. clearbody w1.
  unfold resume_openChatSession, added.
  destruct success as [f|]; simpl in Hret; [rewrite Hret|];
    unfold world_of; simpl;
    rewrite Hcalls, Hfresh; rewrite <- ?app_assoc, ?app_nil_r;
    split; reflexivity.
Qed.

(** X5.  When the Factory rejects, no session object is built and nothing is
    opened: the attempt's only calls are the one Factory call, with the
    input itself, and the failure callback; no reference is allocated,
    and the bus and the log are left alone. *)
Theorem factory_rejection_builds_no_session (env : Env) (input : JS.obj)
  (success : callback ChatSession) (failure : callback JS.value)
  (c : Component) (w : World) (error : JS.value) :
  JS.truthy (JS.prop input "chatSessionParameters") = false ->
  initiateChat env input = Rejected error ->
  let cfg := submitChatInitiation env input success failure c w in
  added (calls w) (calls (world_of cfg))
    (CallInitiateChat input ::
     match failure with Some _ => [CallFailure error] | None => [] end) /\
  open_calls (calls (world_of cfg)) = open_calls (calls w) /\
  fresh (world_of cfg) = fresh w /\
  bus (world_of cfg) = bus w /\
  log (world_of cfg) = log w.
Proof.
  intros Hp Hf cfg. subst cfg.
  rewrite (attempt_stops_at_factory env input success failure c w error Hp Hf).
  unfold on_error, added.
  destruct failure; simpl; autorewrite with calls; simpl;
    autorewrite with calls; rewrite <- ?app_assoc; repeat split; reflexivity.
Qed.

(** X6.  When the opening rejects, the session was built and its close
    handler registered before the opening was tried, and the failure
    callback is the last call; the success callback is not called. *)
Theorem open_rejection_call_order (env : Env) (input : JS.obj)
  (success : callback ChatSession) (failure : callback JS.value)
  (c : Component) (w : World) (chatDetails : JS.obj) (error : JS.value) :
  descriptor env input chatDetails ->
  openResult env (session_of input chatDetails w) = Rejected error ->
  let cfg := submitChatInitiation env input success failure c w in
  let session := session_of input chatDetails w in
  added (calls w) (calls (world_of cfg))
    ((if JS.truthy (JS.prop input "chatSessionParameters") then []
      else [CallInitiateChat input]) ++
     [CallOnChatClose session; CallOpenChatSession session] ++
     match failure with Some _ => [CallFailure error] | None => [] end) /\
  fresh (world_of cfg) = S (fresh w).
Proof.
  intros Hd Ho cfg session. subst cfg session.
  rewrite (attempt_reaches_open env input success failure c w chatDetails Hd).
  rewrite Ho.
  pose proof (calls_world_at_open input chatDetails w) as Hcalls.
  pose proof (fresh_world_at_open input chatDetails w) as Hfresh.
  set (w1 := world_at_open input chatDetails w) in *. clearbody w1.
  unfold resume_openChatSession, on_error, added.
  destruct failure; unfold world_of; simpl; rewrite Hcalls, Hfresh;
    rewrite <- ?app_assoc, ?app_nil_r; split; reflexivity.
Qed.

(** X7.  One attempt never retries: whatever the remote side and the
    callbacks do, it calls the Factory at most once (and then with the
    input itself), builds and opens at most one session, and calls each
    callback at most once. *)
Theorem attempt_never_retries (env : Env) (input : JS.obj)
  (success : callback ChatSession) (failure : callback JS.value)
  (c : Component) (w : World) :
  let cfg := submitChatInitiation env input success failure c w in
  exists new,
    added (calls w) (calls (world_of cfg)) new /\
    (factory_calls new = [] \/ factory_calls new = [input]) /\
    List.length (open_calls new) <= 1 /\
    List.length (success_calls new) <= 1 /\
    List.length (failure_calls new) <= 1 /\
    fresh (world_of cfg) <= S (fresh w).
Proof.
  intros cfg. subst cfg.
  destruct (descriptor_or_rejected env input)
    as [[d Hd] | [error [Hp Hf]]].
  - rewrite (attempt_reaches_open env input success failure c w d Hd).
    pose proof (fresh_world_at_open input d w) as Hfresh.
    pose proof (calls_world_at_open input d w) as Hcalls.
    set (w1 := world_at_open input d w) in *. clearbody w1.
    unfold resume_openChatSession, on_error, added.
    destruct (openResult env (session_of input d w)) as [[]|error];
      [destruct success as [f|];
       [destruct (f (session_of input d w)) as [|thrown]|]|];
      try destruct failure as [g|]; unfold world_of; simpl;
      rewrite ?Hcalls, Hfresh;
      rewrite <- ?app_assoc; eexists; (split; [reflexivity|]);
      autorewrite with calls;
      destruct (JS.truthy (JS.prop input "chatSessionParameters"));
      simpl; auto 10.
  - rewrite (attempt_stops_at_factory env input success failure c w error
               Hp Hf).
    unfold on_error, added.
    destruct failure as [g|]; unfold world_of; simpl;
      rewrite <- ?app_assoc;
      eexists; (split; [reflexivity|]); simpl; auto 10.
Qed.

(** ** The [initChat] handler *)

Lemma settle_ignores_log (env : Env) (l : list (string * list JS.value))
  (cfg : Component * World * Task) :
  settle env (component_of cfg, with_log l (world_of cfg), task_of cfg) =
  (component_of (settle env cfg),
   with_log l (world_of (settle env cfg)),
   task_of (settle env cfg)).
Proof.
  destruct cfg as [[c w] t].
  unfold component_of, world_of, task_of. simpl fst. simpl snd.
  destruct t as [input cp success failure
                | input d session success failure | r]; simpl.
  - destruct (initiateChat env input) as [d|error]; simpl.
    + reflexivity.
    + unfold on_error. destruct failure; reflexivity.
  - unfold resume_openChatSession, on_error.
    destruct (openResult env session) as [u|error].
    + destruct success as [f|]; [|reflexivity].
      destruct (f session); [reflexivity|].
      destruct failure; reflexivity.
    + destruct failure; reflexivity.
  - reflexivity.
Qed.

Lemma submit_start_ignores_log (l : list (string * list JS.value))
  (input : JS.obj) (success : callback ChatSession)
  (failure : callback JS.value) (c : Component) (w : World) :
  submit_start input success failure c (with_log l w) =
  (component_of (submit_start input success failure c w),
   with_log l (world_of (submit_start input success failure c w)),
   task_of (submit_start input success failure c w)).
Proof.
  unfold submit_start, start_open.
  destruct (JS.truthy (JS.prop input "chatSessionParameters")); reflexivity.
Qed.

Lemma attempt_keeps_log (env : Env) (l : list (string * list JS.value))
  (input : JS.obj) (success : callback ChatSession)
  (failure : callback JS.value) (c : Component) (w : World) :
  log
    (world_of
       (settle env
          (settle env
             (submit_start input success failure c (with_log l w))))) = l.
Proof.
  rewrite submit_start_ignores_log.
  rewrite settle_ignores_log. rewrite settle_ignores_log. reflexivity.
Qed.

(** X8.  Over a whole attempt started through the [initChat] handler,
    a component without a logger logs nothing, and one with a logger
    logs exactly one line, ["Chat session meta data:"], with one object.
    Looking any key up in that object gives: for the six metadata keys,
    the input's value when that is truthy and [null] when it is falsy or
    absent; for every other key (the name, the session parameters, the
    authentication parameters, the language, ...) [undefined]. *)
Theorem initChat_handler_logs_six_fields (env : Env) (input : JS.obj)
  (success : callback ChatSession) (failure : callback JS.value)
  (c : Component) (w : World) :
  let handled :=
    settle env (settle env (initiateChatSession input success failure c w)) in
  (logger c = false -> log (world_of handled) = log w) /\
  (logger c = true ->
   exists fields,
     log (world_of handled) =
       log w ++ [("Chat session meta data:", [JS.Obj fields])] /\
     forall k,
       JS.prop fields k =
       if logged_key k then
         if JS.truthy (JS.prop input k) then JS.prop input k else JS.Null
       else JS.Undefined).
Proof.
  intros handled. subst handled. unfold initiateChatSession, info. split.
  - intros ->.
    replace w with (with_log (log w) w) at 1 by (destruct w; reflexivity).
    apply attempt_keeps_log.
  - intros ->. eexists. split; [apply attempt_keeps_log|].
    intros k. unfold logged_key, metadata_keys. cbn [JS.prop existsb].
    destruct (String.eqb_spec k "contactFlowId") as [->|_];
      [reflexivity|].
    destruct (String.eqb_spec k "instanceId") as [->|_]; [reflexivity|].
    destruct (String.eqb_spec k "region") as [->|_]; [reflexivity|].
    destruct (String.eqb_spec k "stage") as [->|_]; [reflexivity|].
    destruct (String.eqb_spec k "featurePermissions") as [->|_];
      [reflexivity|].
    destruct (String.eqb_spec k "apiGatewayEndpoint") as [->|_];
      reflexivity.
Qed.

(** ** What is on screen *)

Lemma run_until_open_pending (env : Env) (input : JS.obj)
  (success : callback ChatSession) (failure : callback JS.value)
  (c : Component) (w : World) (chatDetails : JS.obj) :
  descriptor env input chatDetails ->
  run_until_open env input success failure c w =
  (setState (only_status Initiating) c,
   world_at_open input chatDetails w,
   AwaitOpenChatSession input chatDetails (session_of input chatDetails w)
     success failure).
Proof.
  intros Hd. unfold run_until_open, submit_start, start_open, world_at_open.
  destruct Hd as [Hp | d Hp Hf]; rewrite Hp.
  - reflexivity.
  - simpl. rewrite Hf. reflexivity.
Qed.

Lemma failed_attempt_state (env : Env) (input : JS.obj)
  (success : callback ChatSession) (failure : callback JS.value)
  (c : Component) (w : World) (error : JS.value) :
  attempt_fails env input w error ->
  state (component_of (submitChatInitiation env input success failure c w)) =
    merge (only_status InitiateFailed) (state c) /\
  current (world_of (submitChatInitiation env input success failure c w)) =
    current w.
Proof.
  intros [Hp Hf | d Hd Ho].
  - rewrite (attempt_stops_at_factory env input success failure c w error
               Hp Hf).
    destruct (on_error_effect failure error
                (setState (only_status Initiating) c)
                (record_call (CallInitiateChat input) w))
      as (-> & -> & _).
    split; reflexivity.
  - rewrite (attempt_reaches_open env input success failure c w d Hd).
    rewrite Ho. simpl resume_openChatSession.
    destruct (on_error_effect failure error
                (setState (only_status Initiating) c)
                (world_at_open input d w)) as (-> & -> & _).
    split; [reflexivity | apply current_world_at_open].
Qed.

(** What a resolved opening does, in whatever state and world it finds. *)
Lemma resolved_open_takes_over (input chatDetails : JS.obj)
  (session : ChatSession) (success : callback ChatSession)
  (failure : callback JS.value) (c : Component) (w : World) :
  returns_normally success session ->
  state
    (component_of
       (resume_openChatSession (Resolved tt) input chatDetails session
          success failure c w)) =
  {| chatSession := Some session;
     composerConfig := composerConfigOf input chatDetails;
     status := Initiated;
     language := effectiveLanguage input |} /\
  current
    (world_of
       (resume_openChatSession (Resolved tt) input chatDetails session
          success failure c w)) = Some session.
Proof.
  intros Hret. unfold resume_openChatSession.
  destruct success as [f|]; simpl in Hret; [rewrite Hret|];
    split; reflexivity.
Qed.

(** X9.  Once the update of the prefix is merged (when the call returns
    if it was made outside a batch, when the batch ends otherwise) the
    loader is on screen, whatever was shown before (a running chat
    included), and it still is when the Factory call has resolved and the
    opening is awaited.  Inside a batch, right after the call returns,
    the screen is still what it was. *)
Theorem loader_shown_once_update_merged (props : JS.obj) (env : Env)
  (input : JS.obj) (success : callback ChatSession)
  (failure : callback JS.value) (m : Scheduled) (w : World) :
  let r := submit_start_in input success failure m w in
  render props (end_of_batch (scheduled_of r)) = LoaderView /\
  (forall c, m = Idle c ->
             render props (observed (scheduled_of r)) = LoaderView) /\
  (forall c queue,
     m = InBatch c queue ->
     render props (observed (scheduled_of r)) = render props c) /\
  (forall chatDetails,
     descriptor env input chatDetails ->
     render props
       (component_of
          (run_until_open env input success failure (end_of_batch m) w)) =
     LoaderView /\
     ~ is_finished
         (task_of
            (run_until_open env input success failure (end_of_batch m) w))).
Proof.
  intros r.
  assert (Hfirst : scheduled_of r = setState_in (only_status Initiating) m).
  { subst r. unfold scheduled_of, submit_start_in.
    destruct (JS.truthy (JS.prop input "chatSessionParameters"));
      reflexivity. }
  rewrite Hfirst. split; [|split; [|split]].
  - rewrite end_of_batch_setState_in. reflexivity.
  - intros c ->. reflexivity.
  - intros c queue ->. reflexivity.
  - intros d Hd.
    rewrite (run_until_open_pending env input success failure
               (end_of_batch m) w d Hd).
    split; [reflexivity | intros H; exact H].
Qed.

(** X10.  After an attempt that failed at the Factory or at the opening, the
    failure box is on screen with [resetState] behind its button; pressing
    it brings the loader back and leaves the component as it was before
    the attempt but for a cleared session and the status [NotInitiated],
    and the registry as it was. *)
Theorem go_back_after_failure (props : JS.obj) (env : Env) (input : JS.obj)
  (success : callback ChatSession) (failure : callback JS.value)
  (c : Component) (w : World) (error : JS.value) :
  attempt_fails env input w error ->
  let cfg := submitChatInitiation env input success failure c w in
  exists onClick,
    render props (component_of cfg) = FailedView onClick /\
    let back := onClick (component_of cfg) (world_of cfg) in
    render props (fst back) = LoaderView /\
    state (fst back) =
      {| chatSession := None;
         composerConfig := composerConfig (state c);
         status := NotInitiated;
         language := language (state c) |} /\
    current (snd back) = current w.
Proof.
  intros Hfail cfg.
  destruct (failed_attempt_state env input success failure c w error Hfail)
    as [Hstate Hcur].
  fold cfg in Hstate, Hcur.
  set (c1 := component_of cfg) in *. set (w1 := world_of cfg) in *.
  clearbody c1 w1.
  exists resetState. unfold render. rewrite Hstate. simpl.
  split; [reflexivity|]. rewrite Hstate. simpl.
  repeat split.
  unfold info. destruct (logger c1); exact Hcur.
Qed.

(** X11.  After a successful attempt whose success callback returned, the
    [Chat] element is on screen, and it is given the very session the
    registry holds, the composer configuration derived from the input and
    the descriptor, the effective language, and [resetState] as its
    [onEnded]. *)
Theorem chat_rendered_with_registry_session (props : JS.obj) (env : Env)
  (input : JS.obj) (success : callback ChatSession)
  (failure : callback JS.value) (c : Component) (w : World)
  (chatDetails : JS.obj) :
  attempt_succeeds env input w chatDetails ->
  returns_normally success (session_of input chatDetails w) ->
  let cfg := submitChatInitiation env input success failure c w in
  render props (component_of cfg) =
    ChatView (current (world_of cfg)) (composerConfigOf input chatDetails)
      resetState (effectiveLanguage input) props /\
  current (world_of cfg) = Some (session_of input chatDetails w).
Proof.
  intros Hok Hret cfg.
  destruct (opened_attempt_state env input success failure c w chatDetails
              Hok) as (Hsess & Hcfg & Hlang & Hcur & Hstatus).
  fold cfg in Hsess, Hcfg, Hlang, Hcur, Hstatus.
  assert (Hst : status (state (component_of cfg)) = Initiated).
  { rewrite Hstatus. destruct success as [f|]; [|reflexivity].
    simpl in Hret. now rewrite Hret. }
  unfold render. rewrite Hst, Hsess, Hcfg, Hlang, Hcur. auto.
Qed.

(** ** Reset in the middle of things *)

(** X12.  When a chat that was opened is reset (its [onEnded], or "Go Back"
    after a throwing success callback), the state lets go of the session
    but the registry does not: it still names the ended session; the
    composer configuration and the language of that chat stay in the
    state, and the loader is on screen. *)
Theorem reset_leaves_registry_pointing_at_session (props : JS.obj)
  (env : Env) (input : JS.obj) (success : callback ChatSession)
  (failure : callback JS.value) (c : Component) (w : World)
  (chatDetails : JS.obj) :
  attempt_succeeds env input w chatDetails ->
  let cfg := submitChatInitiation env input success failure c w in
  let back := resetState (component_of cfg) (world_of cfg) in
  current (snd back) = Some (session_of input chatDetails w) /\
  state (fst back) =
    {| chatSession := None;
       composerConfig := composerConfigOf input chatDetails;
       status := NotInitiated;
       language := effectiveLanguage input |} /\
  render props (fst back) = LoaderView.
Proof.
  intros Hok cfg back.
  destruct (opened_attempt_state env input success failure c w chatDetails
              Hok) as (Hsess & Hcfg & Hlang & Hcur & _).
  fold cfg in Hsess, Hcfg, Hlang, Hcur.
  subst back.
  set (c1 := component_of cfg) in *. set (w1 := world_of cfg) in *.
  clearbody c1 w1.
  unfold resetState, render, info. simpl. unfold merge. simpl.
  rewrite Hcfg, Hlang. repeat split.
  destruct (logger c1); exact Hcur.
Qed.

(** X13.  A reset does not cancel an attempt that is under way: if
    [resetState] runs while the opening is awaited and the opening then
    resolves, the component ends in [Initiated] with the new session in
    the state and in the registry, and the [Chat] element on screen. *)
Theorem reset_does_not_cancel_pending_attempt (props : JS.obj) (env : Env)
  (input : JS.obj) (success : callback ChatSession)
  (failure : callback JS.value) (c : Component) (w : World)
  (chatDetails : JS.obj) :
  attempt_succeeds env input w chatDetails ->
  returns_normally success (session_of input chatDetails w) ->
  let pending := run_until_open env input success failure c w in
  let back := resetState (component_of pending) (world_of pending) in
  let cfg := settle_in env (task_of pending) back in
  status (state (fst back)) = NotInitiated /\
  state (component_of cfg) =
    {| chatSession := Some (session_of input chatDetails w);
       composerConfig := composerConfigOf input chatDetails;
       status := Initiated;
       language := effectiveLanguage input |} /\
  current (world_of cfg) = Some (session_of input chatDetails w) /\
  render props (component_of cfg) =
    ChatView (Some (session_of input chatDetails w))
      (composerConfigOf input chatDetails) resetState
      (effectiveLanguage input) props.
Proof.
  intros [Hd Ho] Hret pending back cfg. subst cfg back pending.
  rewrite (run_until_open_pending env input success failure c w chatDetails
             Hd).
  unfold settle_in, task_of. simpl snd. simpl settle. rewrite Ho.
  split; [reflexivity|].
  match goal with
  | |- context [resume_openChatSession _ _ _ _ _ _ ?c0 ?w0] =>
      destruct (resolved_open_takes_over input chatDetails
                  (session_of input chatDetails w) success failure c0 w0
                  Hret) as [Hstate Hcur]
  end.
  unfold render. rewrite Hstate, Hcur. simpl. auto.
Qed.

(** ** Attempts that overlap *)

(** X14.  The attempt that settles last wins, not the one started last: if a
    first attempt is awaiting its opening while a second attempt runs
    from start to finish (however it goes), and the first opening then
    resolves, the state and the registry hold the first attempt's
    session, with its composer configuration and language, and the
    status is [Initiated]. *)
Theorem earlier_attempt_settling_last_wins (env : Env)
  (input1 input2 : JS.obj) (success1 success2 : callback ChatSession)
  (failure1 failure2 : callback JS.value) (c : Component) (w : World)
  (chatDetails1 : JS.obj) :
  attempt_succeeds env input1 w chatDetails1 ->
  returns_normally success1 (session_of input1 chatDetails1 w) ->
  let first := run_until_open env input1 success1 failure1 c w in
  let second :=
    submitChatInitiation env input2 success2 failure2 (component_of first)
      (world_of first) in
  let final :=
    settle_in env (task_of first) (component_of second, world_of second) in
  state (component_of final) =
    {| chatSession := Some (session_of input1 chatDetails1 w);
       composerConfig := composerConfigOf input1 chatDetails1;
       status := Initiated;
       language := effectiveLanguage input1 |} /\
  current (world_of final) = Some (session_of input1 chatDetails1 w).
Proof.
  intros [Hd Ho] Hret first second final. subst final.
  assert (Htask : task_of first =
                  AwaitOpenChatSession input1 chatDetails1
                    (session_of input1 chatDetails1 w) success1 failure1).
  { subst first.
    now rewrite (run_until_open_pending env input1 success1 failure1 c w
                   chatDetails1 Hd). }
  rewrite Htask. unfold settle_in. simpl fst. simpl snd. simpl settle.
  rewrite Ho.
  exact (resolved_open_takes_over input1 chatDetails1
           (session_of input1 chatDetails1 w) success1 failure1
           (component_of second) (world_of second) Hret).
Qed.

(** X15.  A stale failure marks a live chat as failed: if a first attempt is
    awaiting its opening while a second attempt succeeds, and the first
    opening then rejects, the status reads [InitiateFailed] and the
    failure box is on screen, while the state and the registry still
    hold the second attempt's open session. *)
Theorem stale_failure_hides_live_chat (props : JS.obj) (env : Env)
  (input1 input2 : JS.obj) (success1 success2 : callback ChatSession)
  (failure1 failure2 : callback JS.value) (c : Component) (w : World)
  (chatDetails1 chatDetails2 : JS.obj) (error : JS.value) :
  descriptor env input1 chatDetails1 ->
  openResult env (session_of input1 chatDetails1 w) = Rejected error ->
  let first := run_until_open env input1 success1 failure1 c w in
  attempt_succeeds env input2 (world_of first) chatDetails2 ->
  returns_normally success2
    (session_of input2 chatDetails2 (world_of first)) ->
  let second :=
    submitChatInitiation env input2 success2 failure2 (component_of first)
      (world_of first) in
  let final :=
    settle_in env (task_of first) (component_of second, world_of second) in
  status (state (component_of final)) = InitiateFailed /\
  chatSession (state (component_of final)) =
    Some (session_of input2 chatDetails2 (world_of first)) /\
  current (world_of final) =
    Some (session_of input2 chatDetails2 (world_of first)) /\
  render props (component_of final) = FailedView resetState /\
  ref (session_of input1 chatDetails1 w) <
  ref (session_of input2 chatDetails2 (world_of first)).
Proof.
  intros Hd Ho first Hok2 Hret2 second final. subst final.
  assert (Hfirst : first =
                   (setState (only_status Initiating) c,
                    world_at_open input1 chatDetails1 w,
                    AwaitOpenChatSession input1 chatDetails1
                      (session_of input1 chatDetails1 w) success1 failure1)).
  { subst first.
    apply (run_until_open_pending env input1 success1 failure1 c w
             chatDetails1 Hd). }
  destruct (opened_attempt_state env input2 success2 failure2
              (component_of first) (world_of first) chatDetails2 Hok2)
    as (Hsess & _ & _ & Hcur & _).
  fold second in Hsess, Hcur.
  assert (Htask : task_of first =
                  AwaitOpenChatSession input1 chatDetails1
                    (session_of input1 chatDetails1 w) success1 failure1)
    by now rewrite Hfirst.
  rewrite Htask. unfold settle_in. simpl fst. simpl snd. simpl settle.
  rewrite Ho. simpl resume_openChatSession.
  destruct (on_error_effect failure1 error (component_of second)
              (world_of second)) as (Hstate & Hcur' & _).
  unfold render. rewrite Hstate, Hcur'. simpl.
  rewrite Hsess, Hcur. repeat split.
  rewrite Hfirst. unfold world_of, session_of. cbn [fst snd ref].
  rewrite fresh_world_at_open. lia.
Qed.

(** ** Mounting again and again *)

Lemma off_unsubscribed (handler : nat) (b : EventBus.t) :
  Forall (fun entry => snd entry <> handler) b -> EventBus.off handler b = b.
Proof.
  unfold EventBus.off. induction 1 as [|entry b Hentry _ IH]; simpl.
  - reflexivity.
  - apply Nat.eqb_neq in Hentry. rewrite Hentry. simpl. now rewrite IH.
Qed.

Lemma trigger_app (topic : string) (b1 b2 : EventBus.t) :
  EventBus.trigger topic (b1 ++ b2) =
  EventBus.trigger topic b1 ++ EventBus.trigger topic b2.
Proof. unfold EventBus.trigger. now rewrite filter_app, map_app. Qed.

Lemma constructor_then_unmount (has_logger : bool) (w : World) :
  Forall (fun entry => snd entry < fresh w) (bus w) ->
  componentWillUnmount (fst (constructor has_logger w))
    (snd (constructor has_logger w)) =
  {| current := current w;
     bus := bus w ++ [("initChat", S (fresh w))];
     fresh := S (S (fresh w));
     log := log w;
     calls := calls w |}.
Proof.
  intros Hold. unfold componentWillUnmount, constructor, bind. simpl.
  unfold with_bus. simpl. f_equal.
  apply off_unsubscribed. unfold EventBus.on.
  apply Forall_app. split.
  - eapply Forall_impl; [|exact Hold]. simpl. intros entry H. lia.
  - constructor; [simpl; lia | constructor].
Qed.

Lemma remount_S (n : nat) (has_logger : bool) (w : World) :
  remount (S n) has_logger w =
  remount n has_logger
    (componentWillUnmount (fst (constructor has_logger w))
       (snd (constructor has_logger w))).
Proof.
  cbn [remount]. destruct (constructor has_logger w). reflexivity.
Qed.

(** X16.  In a world whose subscriptions are all older than the next
    reference, tearing a component down changes nothing at all: the world
    after [componentWillUnmount] is the world the constructor left. *)
Theorem unmount_changes_nothing (has_logger : bool) (w : World) :
  Forall (fun entry => snd entry < fresh w) (bus w) ->
  componentWillUnmount (fst (constructor has_logger w))
    (snd (constructor has_logger w)) =
  snd (constructor has_logger w).
Proof.
  intros Hold. rewrite (constructor_then_unmount has_logger w Hold).
  reflexivity.
Qed.

(** X17.  Every mount leaves one more [initChat] subscriber behind: after [n]
    rounds of constructing a component and tearing it down again,
    [initChat] is delivered to [n] more handlers than before. *)
Theorem remount_accumulates_subscribers (n : nat) (has_logger : bool)
  (w : World) :
  Forall (fun entry => snd entry < fresh w) (bus w) ->
  List.length
    (EventBus.trigger "initChat" (bus (remount n has_logger w))) =
  List.length (EventBus.trigger "initChat" (bus w)) + n.
Proof.
  revert w. induction n as [|n IH]; intros w Hold.
  - simpl. lia.
  - rewrite remount_S.
    rewrite (constructor_then_unmount has_logger w Hold).
    rewrite IH.
    + simpl. rewrite trigger_app, length_app. simpl. lia.
    + simpl. apply Forall_app. split.
      * eapply Forall_impl; [|exact Hold]. simpl. intros entry H. lia.
      * constructor; [simpl; lia | constructor].
Qed.

(** ** References *)

Lemma allocated_later (w w' : World) (s : option ChatSession) :
  fresh w <= fresh w' -> allocated w s -> allocated w' s.
Proof. intros Hle H s0 Hs. specialize (H s0 Hs). lia. Qed.

Lemma attempt_frame (env : Env) (input : JS.obj)
  (success : callback ChatSession) (failure : callback JS.value)
  (c : Component) (w : World) :
  let cfg := submitChatInitiation env input success failure c w in
  bus (world_of cfg) = bus w /\
  submitChatInitiationHandler (component_of cfg) =
    submitChatInitiationHandler c /\
  fresh w <= fresh (world_of cfg) /\
  (chatSession (state (component_of cfg)) = chatSession (state c) \/
   exists s, chatSession (state (component_of cfg)) = Some s /\
             ref s = fresh w /\ fresh (world_of cfg) = S (fresh w)) /\
  (current (world_of cfg) = current w \/
   exists s, current (world_of cfg) = Some s /\
             ref s = fresh w /\ fresh (world_of cfg) = S (fresh w)).
Proof.
  intros cfg. subst cfg.
  destruct (descriptor_or_rejected env input)
    as [[d Hd] | [error [Hp Hf]]].
  - rewrite (attempt_reaches_open env input success failure c w d Hd).
    pose proof (fresh_world_at_open input d w) as Hfresh.
    pose proof (current_world_at_open input d w) as Hcur.
    assert (Hbus : bus (world_at_open input d w) = bus w).
    { unfold world_at_open.
      destruct (JS.truthy (JS.prop input "chatSessionParameters"));
        reflexivity. }
    set (w1 := world_at_open input d w) in *. clearbody w1.
    unfold resume_openChatSession, on_error.
    destruct (openResult env (session_of input d w)) as [[]|error];
      [destruct success as [f|];
       [destruct (f (session_of input d w)) as [|thrown]|]|];
      try destruct failure as [g|];
      unfold world_of, component_of; simpl;
      rewrite ?Hfresh, ?Hcur, ?Hbus;
      repeat split; auto;
      try (right; eexists; repeat split; reflexivity).
  - rewrite (attempt_stops_at_factory env input success failure c w error
               Hp Hf).
    unfold on_error. destruct failure as [g|];
      unfold world_of, component_of; simpl; repeat split; auto.
Qed.

(** X18.  No operation of the component ever holds a reference that is not
    allocated yet: if the state's session, the registry's session, the
    subscriptions and the kept handler are all older than the next
    reference, they still are after a whole attempt (however it goes),
    after [resetState] and after [componentWillUnmount]; and a session
    that an attempt opens is a new object, none of those held before. *)
Theorem references_stay_allocated (env : Env) (input : JS.obj)
  (success : callback ChatSession) (failure : callback JS.value)
  (c : Component) (w : World) :
  well_formed c w ->
  let cfg := submitChatInitiation env input success failure c w in
  well_formed (component_of cfg) (world_of cfg) /\
  well_formed (fst (resetState c w)) (snd (resetState c w)) /\
  well_formed c (componentWillUnmount c w) /\
  (forall chatDetails old,
     chatSession (state c) = Some old \/ current w = Some old ->
     ref old <> ref (session_of input chatDetails w)).
Proof.
  intros (Hstate & Hcur & Hbus & Hkept) cfg.
  destruct (attempt_frame env input success failure c w)
    as (Fbus & Fkept & Ffresh & Fstate & Fcur).
  fold cfg in Fbus, Fkept, Ffresh, Fstate, Fcur.
  repeat split.
  - destruct Fstate as [-> | (s & -> & Hs & Hf)].
    + now apply (allocated_later w).
    + intros s0 Hs0. injection Hs0 as <-. lia.
  - destruct Fcur as [-> | (s & -> & Hs & Hf)].
    + now apply (allocated_later w).
    + intros s0 Hs0. injection Hs0 as <-. lia.
  - rewrite Fbus. eapply Forall_impl; [|exact Hbus].
    simpl. intros entry H. lia.
  - rewrite Fkept. lia.
  - intros s0 Hs0. discriminate Hs0.
  - unfold resetState, info. destruct (logger c); exact Hcur.
  - unfold resetState, info. destruct (logger c); exact Hbus.
  - unfold resetState, info. destruct (logger c); exact Hkept.
  - exact Hstate.
  - exact Hcur.
  - unfold componentWillUnmount, EventBus.off. simpl.
    apply incl_Forall with (l1 := bus w); [|exact Hbus].
    apply incl_filter.
  - exact Hkept.
  - intros d old [Hold | Hold] Heq.
    + apply Hstate in Hold. simpl in Heq. lia.
    + apply Hcur in Hold. simpl in Heq. lia.
Qed.

(** ** More on the feature flags *)

Lemma split_comma_app (a b : string) :
  JS.split_comma (String.append a (String JS.comma b)) =
  JS.split_comma a ++ JS.split_comma b.
Proof.
  induction a as [|ch a IH]; simpl.
  - reflexivity.
  - destruct (Ascii.eqb ch JS.comma).
    + now rewrite IH.
    + rewrite IH. pose proof (split_comma_not_nil a) as Hne.
      destruct (JS.split_comma a) as [|p ps]; [contradiction|].
      reflexivity.
Qed.

(** X19.  Joining two lists of content types with a comma enables rich
    messaging exactly when one of the two lists alone does. *)
Theorem richMessagingEnabled_of_joined_lists (input left right : JS.obj)
  (a b : string) :
  JS.prop input "supportedMessagingContentTypes" =
    JS.Str (String.append a (String JS.comma b)) ->
  JS.prop left "supportedMessagingContentTypes" = JS.Str a ->
  JS.prop right "supportedMessagingContentTypes" = JS.Str b ->
  (richMessagingEnabled input = JS.Bool true <->
   richMessagingEnabled left = JS.Bool true \/
   richMessagingEnabled right = JS.Bool true).
Proof.
  intros Hi Hl Hr. unfold richMessagingEnabled. rewrite Hi, Hl, Hr.
  rewrite split_comma_app. unfold JS.includes. rewrite existsb_app.
  destruct (existsb (String.eqb TEXT_MARKDOWN) (JS.split_comma a));
    destruct (existsb (String.eqb TEXT_MARKDOWN) (JS.split_comma b));
    simpl; split; auto; intros [H|H]; auto; discriminate H.
Qed.

(** X20.  A value without a comma enables rich messaging only when it is the
    markdown literal itself, character for character: nothing is
    trimmed and case is not folded. *)
Theorem richMessagingEnabled_single_entry_exact (input : JS.obj)
  (s : string) :
  JS.comma_free s ->
  JS.prop input "supportedMessagingContentTypes" = JS.Str s ->
  (richMessagingEnabled input = JS.Bool true <-> s = TEXT_MARKDOWN).
Proof.
  intros Hfree Hi. unfold richMessagingEnabled. rewrite Hi.
  rewrite (split_comma_single s Hfree). unfold JS.includes. simpl.
  rewrite orb_false_r. split.
  - intros H. injection H as H. apply String.eqb_eq in H. now subst.
  - intros ->. now rewrite String.eqb_refl.
Qed.

(** X21.  With session parameters in the input, the attachments flag that
    ends up in the state is decided by the input's own feature
    permissions alone: it is the input's marking when that is truthy and
    [undefined] otherwise, whatever the session parameters contain. *)
Theorem prebuilt_attachments_decided_by_input (env : Env) (input : JS.obj)
  (success : callback ChatSession) (failure : callback JS.value)
  (c : Component) (w : World) :
  JS.truthy (JS.prop input "chatSessionParameters") = true ->
  openResult env
    (session_of input
       [("startChatResult", JS.prop input "chatSessionParameters")] w) =
  Resolved tt ->
  composerConfig
    (state
       (component_of (submitChatInitiation env input success failure c w))) =
  JS.Obj
    [("attachmentsEnabled",
      if marked input
      then JS.index (JS.prop input "featurePermissions") ATTACHMENTS
      else JS.Undefined);
     ("richMessagingEnabled", richMessagingEnabled input)].
Proof.
  intros Hp Ho.
  assert (Hok : attempt_succeeds env input w
                  [("startChatResult",
                    JS.prop input "chatSessionParameters")])
    by (split; [now apply descriptor_prebuilt | exact Ho]).
  destruct (opened_attempt_state env input success failure c w _ Hok)
    as (_ & -> & _).
  unfold composerConfigOf. do 3 f_equal.
  unfold attachmentsEnabled, marked.
  change (JS.prop [("startChatResult", JS.prop input "chatSessionParameters")]
            "featurePermissions") with JS.Undefined.
  unfold JS.or_. rewrite truthy_and. unfold JS.and_.
  destruct (JS.truthy (JS.prop input "featurePermissions")) eqn:Hfp;
    destruct (JS.truthy
                (JS.index (JS.prop input "featurePermissions") ATTACHMENTS))
      eqn:Hx; reflexivity.
Qed.

End ChatContainer.

(** ** Reset *)

(** C8, as the code has it.  From any state, [resetState] sets the status
    to [NotInitiated] and the session reference to [null]; the composer
    configuration and the language stay as they are; the registry, the
    event bus and the calls made to the collaborators stay as they are;
    and the one thing it does besides is to write the line
    ["Chat session is reset"] to the logger when the component has one. *)
Theorem resetState_clears_status_and_session (c : Component) (w : World) :
  let c' := fst (resetState c w) in
  let w' := snd (resetState c w) in
  status (state c') = NotInitiated /\
  chatSession (state c') = None /\
  composerConfig (state c') = composerConfig (state c) /\
  language (state c') = language (state c) /\
  current w' = current w /\
  bus w' = bus w /\
  calls w' = calls w /\
  log w' =
    log w ++ (if logger c then [("Chat session is reset", [])] else []).
Proof.
  unfold resetState, info. simpl.
  destruct (logger c); simpl; rewrite ?app_nil_r; repeat split; reflexivity.
Qed.

(** ** Subscription *)

(** C3, what the code does.  The constructor subscribes one bound
    function to [initChat] and keeps another for [off]; after
    [componentWillUnmount] the subscribed one is still on the bus and
    [initChat] is still delivered to it. *)
Theorem unmount_leaves_initChat_subscription (has_logger : bool) (w : World) :
  let c := fst (constructor has_logger w) in
  let mounted := snd (constructor has_logger w) in
  let unmounted := componentWillUnmount c mounted in
  exists handler,
    bus mounted = bus w ++ [("initChat", handler)] /\
    handler <> submitChatInitiationHandler c /\
    In ("initChat", handler) (bus unmounted) /\
    In handler (EventBus.trigger "initChat" (bus unmounted)).
Proof.
  simpl. exists (S (fresh w)).
  assert (Hkept :
            In ("initChat", S (fresh w))
              (EventBus.off (fresh w)
                 (EventBus.on "initChat" (S (fresh w)) (bus w)))).
  { unfold EventBus.off, EventBus.on. apply filter_In. split.
    - apply in_or_app. right. left. reflexivity.
    - cbn [snd]. apply negb_true_iff. apply Nat.eqb_neq. lia. }
  repeat split.
  - lia.
  - exact Hkept.
  - unfold EventBus.trigger.
    change (S (fresh w)) with (snd ("initChat", S (fresh w))) at 1.
    apply in_map. apply filter_In. split; [exact Hkept | reflexivity].
Qed.

(** ** The statements at sample inputs *)

Lemma failed_attempt_ends_InitiateFailed_at_factory_down :
  attempt_fails factory_down input_A mounted_world network_error /\
  status
    (state
       (component_of
          (submitChatInitiation "ATTACHMENTS" "text/markdown" factory_down
             input_A None (Some (fun _ => Returns)) mounted_component
             mounted_world))) = InitiateFailed.
Proof.
  assert (H : attempt_fails factory_down input_A mounted_world network_error)
    by (apply fails_at_factory; reflexivity).
  split; [exact H|].
  exact (proj1 (failed_attempt_ends_InitiateFailed "ATTACHMENTS"
                  "text/markdown" factory_down input_A None
                  (Some (fun _ => Returns)) mounted_component mounted_world
                  network_error H)).
Defined.

Lemma error_path_writes_only_status_after_success :
  let earlier :=
    submitChatInitiation "ATTACHMENTS" "text/markdown" remote_ok input_A
      None None mounted_component mounted_world in
  let later :=
    submitChatInitiation "ATTACHMENTS" "text/markdown" factory_down input_A
      None None (component_of earlier) (world_of earlier) in
  attempt_fails factory_down input_A (world_of earlier) network_error /\
  chatSession (state (component_of later)) =
    Some (session_of input_A created_descriptor mounted_world) /\
  status (state (component_of later)) = InitiateFailed.
Proof.
  intros earlier later.
  assert (H : attempt_fails factory_down input_A (world_of earlier)
                network_error)
    by (apply fails_at_factory; reflexivity).
  split; [exact H|].
  destruct (error_path_writes_only_status "ATTACHMENTS" "text/markdown"
              factory_down input_A None None (component_of earlier)
              (world_of earlier) network_error H) as [_ Hstate].
  fold later in Hstate. rewrite Hstate. split; reflexivity.
Defined.

Lemma successful_attempt_ends_Initiated_scenario_A :
  attempt_succeeds remote_ok input_A mounted_world created_descriptor /\
  returns_normally quiet_callback
    (session_of input_A created_descriptor mounted_world) /\
  status
    (state
       (component_of
          (submitChatInitiation "ATTACHMENTS" "text/markdown" remote_ok
             input_A quiet_callback None mounted_component mounted_world))) =
  Initiated.
Proof.
  assert (H : attempt_succeeds remote_ok input_A mounted_world
                created_descriptor)
    by (split; [apply descriptor_created; reflexivity | reflexivity]).
  assert (R : returns_normally quiet_callback
                (session_of input_A created_descriptor mounted_world))
    by reflexivity.
  split; [exact H|]. split; [exact R|].
  exact (proj1 (successful_attempt_ends_Initiated "ATTACHMENTS"
                  "text/markdown" remote_ok input_A quiet_callback None
                  mounted_component mounted_world created_descriptor H R)).
Defined.

(** C2 as stated fails: with a success callback that throws, the Factory
    call and the opening both succeed and the attempt still ends in
    [InitiateFailed]. *)
Lemma throwing_success_callback_ends_InitiateFailed :
  attempt_succeeds remote_ok input_A mounted_world created_descriptor /\
  status
    (state
       (component_of
          (submitChatInitiation "ATTACHMENTS" "text/markdown" remote_ok
             input_A throwing_callback None mounted_component
             mounted_world))) = InitiateFailed /\
  status
    (state
       (component_of
          (submitChatInitiation "ATTACHMENTS" "text/markdown" remote_ok
             input_A throwing_callback None mounted_component
             mounted_world))) <> Initiated.
Proof.
  split; [split; [apply descriptor_created; reflexivity | reflexivity]|].
  split; [reflexivity | discriminate].
Qed.

Lemma successful_attempt_language_omitted :
  attempt_succeeds remote_ok input_A mounted_world created_descriptor /\
  language
    (state
       (component_of
          (submitChatInitiation "ATTACHMENTS" "text/markdown" remote_ok
             input_A None None mounted_component mounted_world))) =
  JS.Str "en_US".
Proof.
  assert (H : attempt_succeeds remote_ok input_A mounted_world
                created_descriptor)
    by (split; [apply descriptor_created; reflexivity | reflexivity]).
  split; [exact H|].
  destruct (successful_attempt_language "ATTACHMENTS" "text/markdown"
              remote_ok input_A None None mounted_component mounted_world
              created_descriptor H) as (_ & _ & Homitted).
  apply Homitted. reflexivity.
Defined.

(** C9 as stated fails: a [language] field that is present and holds the
    empty string is replaced by ["en_US"]. *)
Lemma empty_language_is_replaced :
  attempt_succeeds remote_ok input_empty_language mounted_world
    created_descriptor /\
  JS.prop input_empty_language "language" = JS.Str "" /\
  language
    (state
       (component_of
          (submitChatInitiation "ATTACHMENTS" "text/markdown" remote_ok
             input_empty_language None None mounted_component
             mounted_world))) <> JS.prop input_empty_language "language".
Proof.
  split; [split; [apply descriptor_created; reflexivity | reflexivity]|].
  split; [reflexivity | discriminate].
Qed.

Lemma prebuilt_parameters_skip_factory_input_B :
  JS.truthy (JS.prop input_B "chatSessionParameters") = true /\
  factory_calls
    (calls
       (world_of
          (submitChatInitiation "ATTACHMENTS" "text/markdown" factory_down
             input_B None None mounted_component mounted_world))) = [].
Proof.
  assert (H : JS.truthy (JS.prop input_B "chatSessionParameters") = true)
    by reflexivity.
  split; [exact H|].
  exact (proj1 (prebuilt_parameters_skip_factory "ATTACHMENTS"
                  "text/markdown" factory_down input_B None None
                  mounted_component mounted_world H)).
Defined.

(** C4 as stated fails: the descriptor the session is opened with is not
    the session parameters themselves but an object wrapping them, and
    the difference shows: the parameters' own feature permissions would
    enable attachments, the wrapper's do not. *)
Lemma prebuilt_parameters_are_wrapped :
  exists session,
    open_calls
      (calls
         (world_of
            (submitChatInitiation "ATTACHMENTS" "text/markdown" remote_ok
               input_B None None mounted_component mounted_world))) =
    [session] /\
    JS.Obj (details session) <> JS.prop input_B "chatSessionParameters" /\
    attachmentsEnabled "ATTACHMENTS" input_B (details session) =
    JS.Undefined /\
    attachmentsEnabled "ATTACHMENTS" input_B prebuilt_parameters =
    JS.Bool true.
Proof.
  eexists. split; [reflexivity|].
  split; [discriminate|]. split; reflexivity.
Qed.

(** C5 as stated fails: with no feature-permission mapping on either
    side the derived value is [undefined], not [false]. *)
Lemma attachmentsEnabled_undefined_when_both_absent :
  JS.prop input_A "featurePermissions" = JS.Undefined /\
  JS.prop created_descriptor "featurePermissions" = JS.Undefined /\
  attachmentsEnabled "ATTACHMENTS" input_A created_descriptor <>
  JS.Bool false.
Proof.
  split; [reflexivity|]. split; [reflexivity | discriminate].
Qed.

Lemma richMessagingEnabled_text_markdown :
  "text/markdown" <> "" /\
  richMessagingEnabled "text/markdown"
    [("supportedMessagingContentTypes",
      JS.Str "text/plain,text/markdown")] = JS.Bool true /\
  richMessagingEnabled "text/markdown"
    [("supportedMessagingContentTypes", JS.Str "")] = JS.Bool false.
Proof.
  assert (H : "text/markdown" <> "") by discriminate.
  split; [exact H|]. split.
  - apply (proj1 (richMessagingEnabled_iff_markdown_entry "text/markdown"
                    [("supportedMessagingContentTypes",
                      JS.Str "text/plain,text/markdown")] H)).
    exists "text/plain,text/markdown", ["text/plain"; "text/markdown"].
    split; [reflexivity|]. split; [reflexivity|]. split.
    + repeat constructor; discriminate.
    + right. left. reflexivity.
  - apply (proj2 (proj2 (proj2 (proj2
             (richMessagingEnabled_iff_markdown_entry "text/markdown"
                [("supportedMessagingContentTypes", JS.Str "")] H))))).
    reflexivity.
Defined.

(** C8 as stated fails: a component that has a logger writes a log line
    when it is reset, so the world is not what it was. *)
Lemma resetState_logs :
  log (snd (resetState logging_component empty_world)) =
    [("Chat session is reset", [])] /\
  snd (resetState logging_component empty_world) <> empty_world.
Proof.
  split; [reflexivity | discriminate].
Qed.



Lemma attachmentsEnabled_input_marks_true :
  attachmentsEnabled "ATTACHMENTS"
    [("featurePermissions", JS.Obj [("ATTACHMENTS", JS.Bool true)])]
    created_descriptor = JS.Bool true /\
  attachmentsEnabled "ATTACHMENTS" input_A created_descriptor = JS.Undefined.
Proof.
  destruct (attachmentsEnabled_truthy_iff_marked "ATTACHMENTS"
              [("featurePermissions", JS.Obj [("ATTACHMENTS", JS.Bool true)])]
              created_descriptor) as (_ & Htrue & _).
  destruct (attachmentsEnabled_truthy_iff_marked "ATTACHMENTS" input_A
              created_descriptor) as (_ & _ & Habsent).
  split.
  - apply Htrue. left. reflexivity.
  - apply Habsent; reflexivity.
Defined.

(** ** The further statements at sample inputs *)

Lemma attempt_A_succeeds :
  attempt_succeeds remote_ok input_A mounted_world created_descriptor.
Proof. split; [apply descriptor_created; reflexivity | reflexivity]. Qed.

Lemma throwing_success_callback_keeps_session_scenario_A :
  attempt_succeeds remote_ok input_A mounted_world created_descriptor /\
  current
    (world_of
       (submitChatInitiation "ATTACHMENTS" "text/markdown" remote_ok input_A
          throwing_callback noisy_failure mounted_component mounted_world)) =
  Some (session_of input_A created_descriptor mounted_world) /\
  task_of
    (submitChatInitiation "ATTACHMENTS" "text/markdown" remote_ok input_A
       throwing_callback noisy_failure mounted_component mounted_world) =
  Finished (Throws handler_bug).
Proof.
  split; [exact attempt_A_succeeds|].
  destruct (throwing_success_callback_keeps_session "ATTACHMENTS"
              "text/markdown" remote_ok input_A (fun _ => Throws handler_bug)
              noisy_failure mounted_component mounted_world
              created_descriptor handler_bug attempt_A_succeeds eq_refl)
    as (_ & _ & _ & _ & Hcur & _ & Htask).
  split; [exact Hcur | exact Htask].
Defined.

Lemma successful_attempt_call_order_scenario_A :
  attempt_succeeds remote_ok input_A mounted_world created_descriptor /\
  calls
    (world_of
       (submitChatInitiation "ATTACHMENTS" "text/markdown" remote_ok input_A
          quiet_callback None mounted_component mounted_world)) =
  [CallInitiateChat input_A;
   CallOnChatClose (session_of input_A created_descriptor mounted_world);
   CallOpenChatSession (session_of input_A created_descriptor mounted_world);
   CallSuccess (session_of input_A created_descriptor mounted_world)].
Proof.
  split; [exact attempt_A_succeeds|].
  exact (proj1 (successful_attempt_call_order "ATTACHMENTS" "text/markdown"
                  remote_ok input_A quiet_callback None mounted_component
                  mounted_world created_descriptor attempt_A_succeeds
                  eq_refl)).
Defined.

Lemma factory_rejection_builds_no_session_factory_down :
  JS.truthy (JS.prop input_A "chatSessionParameters") = false /\
  initiateChat factory_down input_A = Rejected network_error /\
  fresh
    (world_of
       (submitChatInitiation "ATTACHMENTS" "text/markdown" factory_down
          input_A None None mounted_component mounted_world)) =
  fresh mounted_world.
Proof.
  split; [reflexivity|]. split; [reflexivity|].
  destruct (factory_rejection_builds_no_session "ATTACHMENTS"
              "text/markdown" factory_down input_A None None
              mounted_component mounted_world network_error eq_refl eq_refl)
    as (_ & _ & Hfresh & _).
  exact Hfresh.
Defined.

Lemma open_rejection_call_order_transport_down :
  descriptor transport_down input_A created_descriptor /\
  openResult transport_down
    (session_of input_A created_descriptor mounted_world) =
  Rejected transport_error /\
  calls
    (world_of
       (submitChatInitiation "ATTACHMENTS" "text/markdown" transport_down
          input_A None (Some (fun _ => Returns)) mounted_component
          mounted_world)) =
  [CallInitiateChat input_A;
   CallOnChatClose (session_of input_A created_descriptor mounted_world);
   CallOpenChatSession (session_of input_A created_descriptor mounted_world);
   CallFailure transport_error].
Proof.
  assert (Hd : descriptor transport_down input_A created_descriptor)
    by (apply descriptor_created; reflexivity).
  split; [exact Hd|]. split; [reflexivity|].
  exact (proj1 (open_rejection_call_order "ATTACHMENTS" "text/markdown"
                  transport_down input_A None (Some (fun _ => Returns))
                  mounted_component mounted_world created_descriptor
                  transport_error Hd eq_refl)).
Defined.

Lemma go_back_after_failure_factory_down :
  attempt_fails factory_down input_A mounted_world network_error /\
  exists onClick,
    render []
      (component_of
         (submitChatInitiation "ATTACHMENTS" "text/markdown" factory_down
            input_A None None mounted_component mounted_world)) =
    FailedView onClick.
Proof.
  assert (H : attempt_fails factory_down input_A mounted_world network_error)
    by (apply fails_at_factory; reflexivity).
  split; [exact H|].
  destruct (go_back_after_failure "ATTACHMENTS" "text/markdown" []
              factory_down input_A None None mounted_component mounted_world
              network_error H) as (onClick & Hview & _).
  exists onClick. exact Hview.
Defined.

Lemma chat_rendered_with_registry_session_scenario_A :
  attempt_succeeds remote_ok input_A mounted_world created_descriptor /\
  render []
    (component_of
       (submitChatInitiation "ATTACHMENTS" "text/markdown" remote_ok input_A
          None None mounted_component mounted_world)) =
  ChatView (Some (session_of input_A created_descriptor mounted_world))
    (JS.Obj [("attachmentsEnabled", JS.Undefined);
             ("richMessagingEnabled", JS.Bool false)])
    resetState (JS.Str "en_US") [].
Proof.
  split; [exact attempt_A_succeeds|].
  destruct (chat_rendered_with_registry_session "ATTACHMENTS" "text/markdown"
              [] remote_ok input_A None None mounted_component mounted_world
              created_descriptor attempt_A_succeeds I) as [Hview Hcur].
  rewrite Hview, Hcur. reflexivity.
Defined.

Lemma reset_leaves_registry_pointing_at_session_scenario_A :
  attempt_succeeds remote_ok input_A mounted_world created_descriptor /\
  current
    (snd
       (resetState
          (component_of
             (submitChatInitiation "ATTACHMENTS" "text/markdown" remote_ok
                input_A None None mounted_component mounted_world))
          (world_of
             (submitChatInitiation "ATTACHMENTS" "text/markdown" remote_ok
                input_A None None mounted_component mounted_world)))) =
  Some (session_of input_A created_descriptor mounted_world).
Proof.
  split; [exact attempt_A_succeeds|].
  exact (proj1 (reset_leaves_registry_pointing_at_session "ATTACHMENTS"
                  "text/markdown" [] remote_ok input_A None None
                  mounted_component mounted_world created_descriptor
                  attempt_A_succeeds)).
Defined.

Lemma reset_does_not_cancel_pending_attempt_scenario_A :
  attempt_succeeds remote_ok input_A mounted_world created_descriptor /\
  status
    (state
       (component_of
          (settle_in "ATTACHMENTS" "text/markdown" remote_ok
             (task_of
                (run_until_open "ATTACHMENTS" "text/markdown" remote_ok
                   input_A None None mounted_component mounted_world))
             (resetState
                (component_of
                   (run_until_open "ATTACHMENTS" "text/markdown" remote_ok
                      input_A None None mounted_component mounted_world))
                (world_of
                   (run_until_open "ATTACHMENTS" "text/markdown" remote_ok
                      input_A None None mounted_component
                      mounted_world)))))) = Initiated.
Proof.
  split; [exact attempt_A_succeeds|].
  destruct (reset_does_not_cancel_pending_attempt "ATTACHMENTS"
              "text/markdown" [] remote_ok input_A None None
              mounted_component mounted_world created_descriptor
              attempt_A_succeeds I) as (_ & Hstate & _).
  rewrite Hstate. reflexivity.
Defined.

Lemma earlier_attempt_settling_last_wins_A_then_B :
  attempt_succeeds remote_ok input_A mounted_world created_descriptor /\
  let first :=
    run_until_open "ATTACHMENTS" "text/markdown" remote_ok input_A None None
      mounted_component mounted_world in
  let second :=
    submitChatInitiation "ATTACHMENTS" "text/markdown" remote_ok input_B
      None None (component_of first) (world_of first) in
  current
    (world_of
       (settle_in "ATTACHMENTS" "text/markdown" remote_ok (task_of first)
          (component_of second, world_of second))) =
  Some (session_of input_A created_descriptor mounted_world).
Proof.
  split; [exact attempt_A_succeeds|].
  exact (proj2 (earlier_attempt_settling_last_wins "ATTACHMENTS"
                  "text/markdown" remote_ok input_A input_B None None None
                  None mounted_component mounted_world created_descriptor
                  attempt_A_succeeds I)).
Defined.

Lemma stale_failure_hides_live_chat_flaky_transport :
  let first :=
    run_until_open "ATTACHMENTS" "text/markdown" flaky_transport input_A
      None None mounted_component mounted_world in
  let second :=
    submitChatInitiation "ATTACHMENTS" "text/markdown" flaky_transport
      input_A None None (component_of first) (world_of first) in
  descriptor flaky_transport input_A created_descriptor /\
  openResult flaky_transport
    (session_of input_A created_descriptor mounted_world) =
  Rejected transport_error /\
  attempt_succeeds flaky_transport input_A (world_of first)
    created_descriptor /\
  render []
    (component_of
       (settle_in "ATTACHMENTS" "text/markdown" flaky_transport
          (task_of first) (component_of second, world_of second))) =
  FailedView resetState.
Proof.
  intros first second.
  assert (Hd : descriptor flaky_transport input_A created_descriptor)
    by (apply descriptor_created; reflexivity).
  assert (Hok : attempt_succeeds flaky_transport input_A (world_of first)
                  created_descriptor)
    by (split; [exact Hd | reflexivity]).
  split; [exact Hd|]. split; [reflexivity|]. split; [exact Hok|].
  destruct (stale_failure_hides_live_chat "ATTACHMENTS" "text/markdown" []
              flaky_transport input_A input_A None None None None
              mounted_component mounted_world created_descriptor
              created_descriptor transport_error Hd eq_refl Hok I)
    as (_ & _ & _ & Hview & _).
  exact Hview.
Defined.

Lemma unmount_changes_nothing_empty_world :
  Forall (fun entry => snd entry < fresh empty_world) (bus empty_world) /\
  componentWillUnmount mounted_component mounted_world = mounted_world.
Proof.
  assert (H : Forall (fun entry => snd entry < fresh empty_world)
                (bus empty_world)) by constructor.
  split; [exact H|].
  exact (unmount_changes_nothing false empty_world H).
Defined.

Lemma remount_accumulates_subscribers_three_times :
  Forall (fun entry => snd entry < fresh empty_world) (bus empty_world) /\
  List.length
    (EventBus.trigger "initChat" (bus (remount 3 false empty_world))) = 3.
Proof.
  assert (H : Forall (fun entry => snd entry < fresh empty_world)
                (bus empty_world)) by constructor.
  split; [exact H|].
  exact (remount_accumulates_subscribers 3 false empty_world H).
Defined.

Lemma references_stay_allocated_mounted :
  well_formed mounted_component mounted_world /\
  well_formed
    (component_of
       (submitChatInitiation "ATTACHMENTS" "text/markdown" remote_ok input_A
          None None mounted_component mounted_world))
    (world_of
       (submitChatInitiation "ATTACHMENTS" "text/markdown" remote_ok input_A
          None None mounted_component mounted_world)).
Proof.
  assert (H : well_formed mounted_component mounted_world).
  { repeat split.
    - intros s0 Hs0. discriminate Hs0.
    - intros s0 Hs0. discriminate Hs0.
    - repeat constructor.
    - simpl. lia. }
  split; [exact H|].
  exact (proj1 (references_stay_allocated "ATTACHMENTS" "text/markdown"
                  remote_ok input_A None None mounted_component
                  mounted_world H)).
Defined.

Lemma richMessagingEnabled_of_joined_lists_plain_and_markdown :
  JS.prop plain_and_markdown "supportedMessagingContentTypes" =
    JS.Str (String.append "text/plain" (String JS.comma "text/markdown")) /\
  richMessagingEnabled "text/markdown" plain_and_markdown = JS.Bool true.
Proof.
  split; [reflexivity|].
  apply (proj2 (richMessagingEnabled_of_joined_lists "text/markdown"
                  plain_and_markdown plain_only markdown_only "text/plain"
                  "text/markdown" eq_refl eq_refl eq_refl)).
  right. reflexivity.
Defined.

Lemma richMessagingEnabled_single_entry_exact_plain :
  JS.comma_free "text/plain" /\
  richMessagingEnabled "text/markdown" plain_only <> JS.Bool true.
Proof.
  assert (H : JS.comma_free "text/plain") by (repeat split; discriminate).
  split; [exact H|].
  intros Htrue.
  apply (proj1 (richMessagingEnabled_single_entry_exact "text/markdown"
                  plain_only "text/plain" H eq_refl)) in Htrue.
  discriminate Htrue.
Defined.

Lemma prebuilt_attachments_decided_by_input_B :
  JS.truthy (JS.prop input_B "chatSessionParameters") = true /\
  composerConfig
    (state
       (component_of
          (submitChatInitiation "ATTACHMENTS" "text/markdown" remote_ok
             input_B None None mounted_component mounted_world))) =
  JS.Obj [("attachmentsEnabled", JS.Undefined);
          ("richMessagingEnabled", JS.Bool false)].
Proof.
  split; [reflexivity|].
  exact (prebuilt_attachments_decided_by_input "ATTACHMENTS" "text/markdown"
           remote_ok input_B None None mounted_component mounted_world
           eq_refl eq_refl).
Defined.
